(** * VoiceNoteRecorder: a shallow embedding of the component's handlers

    Source: src/components/VoiceNoteRecorder.tsx.

    The component is React state glue around two collaborators: the
    speech-recognition hook and the remote data client.  The handlers are
    embedded as computations in a small state-and-exception monad over a
    [World] that holds the component state, the hook's state, the pending
    timers and the chronological trace of externally visible effects
    (alerts, console output, store writes, hook operations, callbacks). *)

From Stdlib Require Import List NArith Bool String Ascii QArith Lia.
Import ListNotations.

Local Open Scope N_scope.

(* ================================================================= *)
(** ** JavaScript strings *)

(** A JS string is a sequence of UTF-16 code units. *)
Definition jsstring := list N.

(** An ASCII literal of the source as a JS string. *)
Definition js (s : string) : jsstring :=
  map N_of_ascii (list_ascii_of_string s).

(** ECMAScript WhiteSpace and LineTerminator code points, the set
    [String.prototype.trim] strips. *)
Definition isWhiteSpace (c : N) : bool :=
  (c =? 9) || (c =? 10) || (c =? 11) || (c =? 12) || (c =? 13) ||
  (c =? 32) || (c =? 160) || (c =? 5760) ||
  ((8192 <=? c) && (c <=? 8202)) ||
  (c =? 8232) || (c =? 8233) || (c =? 8239) || (c =? 8287) ||
  (c =? 12288) || (c =? 65279).

Fixpoint trimStart (s : jsstring) : jsstring :=
  match s with
  | [] => []
  | c :: s' => if isWhiteSpace c then trimStart s' else s
  end.

Definition trimEnd (s : jsstring) : jsstring :=
  rev (trimStart (rev s)).

(** [s.trim()] *)
Definition trim (s : jsstring) : jsstring :=
  trimEnd (trimStart s).

(** Truthiness of a string: only the empty string is falsy. *)
Definition truthy_string (s : jsstring) : bool :=
  match s with
  | [] => false
  | _ :: _ => true
  end.

(* ================================================================= *)
(** ** Values of type [any] *)

(** The created record and the error values travel through the component
    as [any]. *)
#[warnings="-register-all"] Inductive jsval : Type :=
| JNull
| JBool (b : bool)
| JNum (q : Q)
| JStr (s : jsstring)
| JObj (fields : list (jsstring * jsval)).

(** [if (v)] *)
Definition truthy (v : jsval) : bool :=
  match v with
  | JNull => false
  | JBool b => b
  | JNum q => negb (Qeq_bool q 0)
  | JStr s => truthy_string s
  | JObj _ => true
  end.

(* ================================================================= *)
(** ** Data model *)

(** The [noteType] union of string literals. *)
Inductive NoteType : Type :=
| general
| symptoms
| diagnosis
| prescription
| follow_up.

(** Row handed to [from('consultation_notes').insert]. *)
Record ConsultationNoteRow : Type := {
  consultation_id : jsstring;
  doctor_id : jsstring;
  note_type : NoteType;
  content : jsstring;
  is_voice_generated : bool;
  voice_confidence_score : Q
}.

(** Row handed to [from('voice_transcriptions').insert]. *)
Record VoiceTranscriptionRow : Type := {
  vt_consultation_id : jsstring;
  vt_doctor_id : jsstring;
  transcribed_text : jsstring;
  confidence_score : Q;
  language_code : jsstring;
  processing_status : jsstring
}.

(** The props.  [onNoteSaved] is the optional callback: absent, or the
    caller's function of the note, which returns ([None]) or throws
    ([Some e]).  What the callback does outside the component belongs to
    the caller; its invocation is recorded in the trace. *)
Record Props : Type := {
  consultationId : jsstring;
  doctorId : jsstring;
  onNoteSaved : option (jsval -> option jsval)
}.

(** The five [useState] cells. *)
Record State : Type := {
  currentTranscript : jsstring;
  savedNotes : list jsval;
  saving : bool;
  noteType : NoteType;
  showSuccess : bool
}.

(** The values the hook [useVoiceRecognition] returns. *)
Record Voice : Type := {
  isListening : bool;
  isSupported : bool;
  transcript : jsstring;
  interimTranscript : jsstring;
  error : jsval
}.

(** Callbacks handed to [setTimeout]; the component registers only
    [() => setShowSuccess(false)]. *)
Inductive Callback : Type :=
| HideSuccess.

(** Externally visible effects, in the order they happen. *)
Inductive Effect : Type :=
| Alert (msg : jsstring)
| ConsoleError (msg : jsstring) (v : jsval)
| InsertNote (row : ConsultationNoteRow)
| InsertLog (row : VoiceTranscriptionRow)
| StartListening
| StopListening
| ResetTranscript
| NoteSaved (note : jsval).

Record World : Type := {
  st : State;
  voice : Voice;
  now : N;
  timers : list (N * Callback);
  trace : list Effect
}.

(** What an awaited store call yields: the promise resolves with a
    [{ data, error }] response, or it rejects and [await] throws. *)
Record Response : Type := {
  data : jsval;
  resp_error : jsval
}.

Inductive Outcome : Type :=
| Resolved (r : Response)
| Rejected (e : jsval).

(* ================================================================= *)
(** ** State and exception monad *)

Inductive Res (A : Type) : Type :=
| Ok (a : A)
| Throw (e : jsval).
Arguments Ok {A} a.
Arguments Throw {A} e.

Definition M (A : Type) : Type := World -> Res A * World.

Definition ret {A} (a : A) : M A := fun w => (Ok a, w).

Definition bind {A B} (m : M A) (k : A -> M B) : M B :=
  fun w =>
    match m w with
    | (Ok a, w') => k a w'
    | (Throw e, w') => (Throw e, w')
    end.

Definition throw {A} (e : jsval) : M A := fun w => (Throw e, w).

(** [try { body } catch (e) { handler e } finally { fin }], for a
    handler and a [finally] block that do not throw themselves. *)
Definition try_catch_finally (body : M unit) (handler : jsval -> M unit)
    (fin : M unit) : M unit :=
  fun w =>
    match body w with
    | (Ok _, w') => fin w'
    | (Throw e, w') => bind (handler e) (fun _ => fin) w'
    end.

Declare Scope monad_scope.
Delimit Scope monad_scope with monad.
Notation "m1 ;; m2" := (bind m1 (fun _ => m2))
  (at level 61, right associativity) : monad_scope.
Notation "x <- m1 ;; m2" := (bind m1 (fun x => m2))
  (at level 61, m1 at next level, right associativity) : monad_scope.
Local Open Scope monad_scope.

Definition modify_st (f : State -> State) : M unit :=
  fun w => (Ok tt, {| st := f (st w); voice := voice w; now := now w;
                      timers := timers w; trace := trace w |}).

Definition modify_voice (f : Voice -> Voice) : M unit :=
  fun w => (Ok tt, {| st := st w; voice := f (voice w); now := now w;
                      timers := timers w; trace := trace w |}).

Definition emit (e : Effect) : M unit :=
  fun w => (Ok tt, {| st := st w; voice := voice w; now := now w;
                      timers := timers w; trace := trace w ++ [e] |}).

(** The world a computation leaves behind. *)
Definition exec {A} (m : M A) (w : World) : World := snd (m w).

(* ----------------------------------------------------------------- *)
(** *** The state setters *)

Definition setCurrentTranscript (f : jsstring -> jsstring) : M unit :=
  modify_st (fun s =>
    {| currentTranscript := f (currentTranscript s);
       savedNotes := savedNotes s; saving := saving s;
       noteType := noteType s; showSuccess := showSuccess s |}).

Definition setSavedNotes (f : list jsval -> list jsval) : M unit :=
  modify_st (fun s =>
    {| currentTranscript := currentTranscript s;
       savedNotes := f (savedNotes s); saving := saving s;
       noteType := noteType s; showSuccess := showSuccess s |}).

Definition setSaving (b : bool) : M unit :=
  modify_st (fun s =>
    {| currentTranscript := currentTranscript s;
       savedNotes := savedNotes s; saving := b;
       noteType := noteType s; showSuccess := showSuccess s |}).

Definition setNoteType (t : NoteType) : M unit :=
  modify_st (fun s =>
    {| currentTranscript := currentTranscript s;
       savedNotes := savedNotes s; saving := saving s;
       noteType := t; showSuccess := showSuccess s |}).

Definition setShowSuccess (b : bool) : M unit :=
  modify_st (fun s =>
    {| currentTranscript := currentTranscript s;
       savedNotes := savedNotes s; saving := saving s;
       noteType := noteType s; showSuccess := b |}).

(* ----------------------------------------------------------------- *)
(** *** Timers *)

(** [setTimeout(cb, ms)] *)
Definition setTimeout (cb : Callback) (ms : N) : M unit :=
  fun w => (Ok tt, {| st := st w; voice := voice w; now := now w;
                      timers := timers w ++ [(now w + ms, cb)];
                      trace := trace w |}).

Definition run_callback (cb : Callback) : M unit :=
  match cb with
  | HideSuccess => setShowSuccess false
  end.

Fixpoint run_callbacks (cbs : list (N * Callback)) (w : World) : World :=
  match cbs with
  | [] => w
  | (_, cb) :: cbs' => run_callbacks cbs' (exec (run_callback cb) w)
  end.

Definition is_due (t : N) (tm : N * Callback) : bool := fst tm <=? t.

(** [d] milliseconds pass with no other event: the timers that have become
    due fire, the others stay pending. *)
Definition advance (d : N) (w : World) : World :=
  let t := now w + d in
  run_callbacks (filter (is_due t) (timers w))
    {| st := st w; voice := voice w; now := t;
       timers := filter (fun tm => negb (is_due t tm)) (timers w);
       trace := trace w |}.

(* ================================================================= *)
(** ** The recognition hook *)

(** Modelled from the spec: the hook [useVoiceRecognition]
    (hooks/useVoiceRecognition) is not among the sources.  Its contract:
    [start()] begins listening and is idempotent if already listening. *)
Definition startListening : M unit :=
  emit StartListening ;;
  modify_voice (fun v =>
    {| isListening := true; isSupported := isSupported v;
       transcript := transcript v;
       interimTranscript := interimTranscript v; error := error v |}).

(** Modelled from the spec: the hook is not among the sources.  Its
    contract: [stop()] ends listening and is idempotent if not
    listening. *)
Definition stopListening : M unit :=
  emit StopListening ;;
  modify_voice (fun v =>
    {| isListening := false; isSupported := isSupported v;
       transcript := transcript v;
       interimTranscript := interimTranscript v; error := error v |}).

(** Modelled from the spec: the hook is not among the sources.  Its
    contract: [reset()] clears [transcript] and [interimTranscript] to
    empty and does not affect the listening state. *)
Definition resetTranscript : M unit :=
  emit ResetTranscript ;;
  modify_voice (fun v =>
    {| isListening := isListening v; isSupported := isSupported v;
       transcript := []; interimTranscript := []; error := error v |}).

(* ================================================================= *)
(** ** The component *)

(** The [onResult] option passed to the hook. *)
Definition onResult (text : jsstring) (isFinal : bool) : M unit :=
  if isFinal
  then setCurrentTranscript (fun prev => prev ++ js " " ++ text)
  else ret tt.

(** The [onError] option passed to the hook. *)
Definition onError (e : jsval) : M unit :=
  emit (ConsoleError (js "Voice recognition error:") e).

(** The body of [useEffect(..., [transcript])], run with the value the
    hook's [transcript] has changed to. *)
Definition transcriptEffect (transcript : jsstring) : M unit :=
  if truthy_string transcript
  then setCurrentTranscript (fun _ => transcript)
  else ret tt.

(** The number literal [0.95]. *)
Definition confidence : Q := 95 # 100.

Definition noteRow (p : Props) (r : State) : ConsultationNoteRow :=
  {| consultation_id := consultationId p;
     doctor_id := doctorId p;
     note_type := noteType r;
     content := trim (currentTranscript r);
     is_voice_generated := true;
     voice_confidence_score := confidence |}.

Definition logRow (p : Props) (r : State) : VoiceTranscriptionRow :=
  {| vt_consultation_id := consultationId p;
     vt_doctor_id := doctorId p;
     transcribed_text := trim (currentTranscript r);
     confidence_score := confidence;
     language_code := js "en-US";
     processing_status := js "completed" |}.

(** [if (onNoteSaved) onNoteSaved(data)]: the call is made when the
    callback is supplied, and it returns or throws. *)
Definition callNoteSaved (p : Props) (note : jsval) : M unit :=
  match onNoteSaved p with
  | Some cb =>
      emit (NoteSaved note) ;;
      match cb note with
      | Some e => throw e
      | None => ret tt
      end
  | None => ret tt
  end.

(** The [try] block of [saveNote].  [r] is the state of the render whose
    closure the handler belongs to; [o1] and [o2] are what the two awaited
    store calls yield. *)
Definition saveNote_try (p : Props) (r : State) (o1 o2 : Outcome) : M unit :=
  emit (InsertNote (noteRow p r)) ;;
  resp <- (match o1 with
           | Resolved resp => ret resp
           | Rejected e => throw e
           end) ;;
  (if truthy (resp_error resp) then throw (resp_error resp) else ret tt) ;;
  emit (InsertLog (logRow p r)) ;;
  (match o2 with
   | Resolved _ => ret tt
   | Rejected e => throw e
   end) ;;
  setSavedNotes (fun prev => data resp :: prev) ;;
  setCurrentTranscript (fun _ => []) ;;
  resetTranscript ;;
  callNoteSaved p (data resp) ;;
  setShowSuccess true ;;
  setTimeout HideSuccess 3000.

Definition saveNote_catch (e : jsval) : M unit :=
  emit (ConsoleError (js "Error saving note:") e) ;;
  emit (Alert (js "Failed to save note. Please try again.")).

Definition saveNote (p : Props) (r : State) (o1 o2 : Outcome) : M unit :=
  if negb (truthy_string (trim (currentTranscript r)))
  then emit (Alert (js "Please record some content before saving."))
  else
    setSaving true ;;
    try_catch_finally (saveNote_try p r o1 o2) saveNote_catch
      (setSaving false).

Definition clearTranscript : M unit :=
  setCurrentTranscript (fun _ => []) ;;
  resetTranscript.

(** [isListening] is the value of the render whose closure the handler
    belongs to. *)
Definition handleToggleRecording (isListening : bool) : M unit :=
  if isListening then stopListening else startListening.

(** The four quick actions. *)
Definition quickSymptoms : M unit :=
  setCurrentTranscript (fun prev => prev ++ js " Patient presents with ") ;;
  setNoteType symptoms.

Definition quickDiagnosis : M unit :=
  setCurrentTranscript (fun prev => prev ++ js " Diagnosis: ") ;;
  setNoteType diagnosis.

Definition quickPrescription : M unit :=
  setCurrentTranscript (fun prev => prev ++ js " Prescribed: ") ;;
  setNoteType prescription.

Definition quickFollowUp : M unit :=
  setCurrentTranscript (fun prev => prev ++ js " Follow-up in ") ;;
  setNoteType follow_up.

(** The [select]'s [onChange]. *)
Definition selectNoteType (t : NoteType) : M unit := setNoteType t.

(* ----------------------------------------------------------------- *)
(** *** User intents on an up-to-date render *)

(** A click on "Save Note": the handler of the current render runs. *)
Definition save (p : Props) (o1 o2 : Outcome) (w : World) : World :=
  exec (saveNote p (st w) o1 o2) w.

(** A click on the record/stop button of the current render. *)
Definition toggleRecording (w : World) : World :=
  exec (handleToggleRecording (isListening (voice w))) w.

(* ----------------------------------------------------------------- *)
(** *** Reading a trace *)

Definition is_write (e : Effect) : bool :=
  match e with
  | InsertNote _ | InsertLog _ => true
  | _ => false
  end.

Definition is_notice (e : Effect) : bool :=
  match e with
  | Alert _ => true
  | _ => false
  end.

(** A store response that reports no error. *)
Definition succeeded (o : Outcome) : bool :=
  match o with
  | Resolved resp => negb (truthy (resp_error resp))
  | Rejected _ => false
  end.

(* ----------------------------------------------------------------- *)
(** *** Concrete worlds *)

(** The state of the first render: the [useState] defaults and a hook
    that is supported, idle and empty. *)
Definition initialState : State :=
  {| currentTranscript := []; savedNotes := []; saving := false;
     noteType := general; showSuccess := false |}.

Definition initialVoice : Voice :=
  {| isListening := false; isSupported := true; transcript := [];
     interimTranscript := []; error := JNull |}.

Definition initialWorld : World :=
  {| st := initialState; voice := initialVoice; now := 0; timers := [];
     trace := [] |}.

(** The initial world with [s] in the transcript buffer. *)
Definition bufferWorld (s : jsstring) : World :=
  exec (setCurrentTranscript (fun _ => s)) initialWorld.

(** Props with a callback that returns. *)
Definition demoProps : Props :=
  {| consultationId := js "consultation-1"; doctorId := js "doctor-1";
     onNoteSaved := Some (fun _ => None) |}.

(** Props with a callback that throws. *)
Definition throwingProps : Props :=
  {| consultationId := js "consultation-1"; doctorId := js "doctor-1";
     onNoteSaved := Some (fun _ => Some (JStr (js "callback failed"))) |}.

(** A response carrying the created record and no error. *)
Definition created (note : jsval) : Outcome :=
  Resolved {| data := note; resp_error := JNull |}.

(** A response carrying an error object. *)
Definition refused : Outcome :=
  Resolved {| data := JNull;
              resp_error := JObj [(js "message", JStr (js "denied"))] |}.

Definition demoNote : jsval := JObj [(js "id", JStr (js "note-1"))].

(* ================================================================= *)
(** ** The rendered view *)

(** What the second [return] renders, as far as it depends on state. *)
Record RecorderView : Type := {
  selectValue : NoteType;
  successMessage : bool;
  toggleDanger : bool;
  toggleDisabled : bool;
  toggleLabel : jsstring;
  listeningIndicator : bool;
  errorDisplay : option jsval;
  transcriptText : jsstring;
  interimSpan : option jsstring;
  placeholder : bool;
  saveDisabled : bool;
  saveLoading : bool;
  clearDisabled : bool
}.

Inductive View : Type :=
| UnsupportedView
| Recorder (v : RecorderView).

(** The component's render: the early [return] of the fallback card when
    the hook reports no support, the recorder card otherwise. *)
Definition render (w : World) : View :=
  if negb (isSupported (voice w)) then UnsupportedView
  else Recorder
    {| selectValue := noteType (st w);
       successMessage := showSuccess (st w);
       toggleDanger := isListening (voice w);
       toggleDisabled := negb (isSupported (voice w));
       toggleLabel := if isListening (voice w) then js "Stop Recording"
                      else js "Start Recording";
       listeningIndicator := isListening (voice w);
       errorDisplay := if truthy (error (voice w))
                       then Some (error (voice w)) else None;
       transcriptText := currentTranscript (st w);
       interimSpan := if truthy_string (interimTranscript (voice w))
                      then Some (interimTranscript (voice w)) else None;
       placeholder := negb (truthy_string (currentTranscript (st w)))
                      && negb (truthy_string (interimTranscript (voice w)));
       saveDisabled := negb (truthy_string (trim (currentTranscript (st w))))
                       || saving (st w);
       saveLoading := saving (st w);
       clearDisabled :=
         negb (truthy_string (trim (currentTranscript (st w)))) |}.

(** A control answers a click when it is rendered and not disabled. *)
Definition clickable (disabled : RecorderView -> bool) (w : World) : bool :=
  match render w with
  | UnsupportedView => false
  | Recorder v => negb (disabled v)
  end.

(* ================================================================= *)
(** ** The component as an event-driven machine *)

Inductive QuickAction : Type :=
| QSymptoms
| QDiagnosis
| QPrescription
| QFollowUp.

Definition quick (q : QuickAction) : M unit :=
  match q with
  | QSymptoms => quickSymptoms
  | QDiagnosis => quickDiagnosis
  | QPrescription => quickPrescription
  | QFollowUp => quickFollowUp
  end.

Definition quickSnippet (q : QuickAction) : jsstring :=
  match q with
  | QSymptoms => js " Patient presents with "
  | QDiagnosis => js " Diagnosis: "
  | QPrescription => js " Prescribed: "
  | QFollowUp => js " Follow-up in "
  end.

Definition quickType (q : QuickAction) : NoteType :=
  match q with
  | QSymptoms => symptoms
  | QDiagnosis => diagnosis
  | QPrescription => prescription
  | QFollowUp => follow_up
  end.

(** The [await] an invocation of [saveNote] is suspended at. *)
Inductive Pending : Type :=
| AwaitNote
| AwaitLog (resp : Response).

(** [saveNote] from its entry to the first [await]: the guard,
    [setSaving(true)] and the first insert being issued. *)
Definition saveNote_start (p : Props) (r : State) : M (option Pending) :=
  if negb (truthy_string (trim (currentTranscript r)))
  then emit (Alert (js "Please record some content before saving.")) ;;
       ret None
  else
    setSaving true ;;
    emit (InsertNote (noteRow p r)) ;;
    ret (Some AwaitNote).

(** The [catch] block followed by the [finally] block. *)
Definition saveNote_fail (e : jsval) : M (option Pending) :=
  saveNote_catch e ;;
  setSaving false ;;
  ret None.

(** [saveNote] from the point where the [await] it is suspended at
    settles, to its next [await] or to its end. *)
Definition saveNote_resume (p : Props) (r : State) (k : Pending)
    (o : Outcome) : M (option Pending) :=
  match k, o with
  | _, Rejected e => saveNote_fail e
  | AwaitNote, Resolved resp =>
      if truthy (resp_error resp) then saveNote_fail (resp_error resp)
      else emit (InsertLog (logRow p r)) ;; ret (Some (AwaitLog resp))
  | AwaitLog resp, Resolved _ =>
      try_catch_finally
        (setSavedNotes (fun prev => data resp :: prev) ;;
         setCurrentTranscript (fun _ => []) ;;
         resetTranscript ;;
         callNoteSaved p (data resp) ;;
         setShowSuccess true ;;
         setTimeout HideSuccess 3000)
        saveNote_catch
        (setSaving false) ;;
      ret None
  end.

(** The world together with the suspended invocations of [saveNote], each
    with the state its closure captured. *)
Record Machine : Type := {
  world : World;
  inflight : list (State * Pending)
}.

Definition initialMachine : Machine :=
  {| world := initialWorld; inflight := [] |}.

(** What happens to the component: the hook delivers a result or an error
    or reports a new cumulative transcript, the user operates a control, a
    store request settles, time passes. *)
Inductive Event : Type :=
| EvResult (text : jsstring) (isFinal : bool)
| EvError (e : jsval)
| EvTranscript (s : jsstring)
| EvSelect (t : NoteType)
| EvQuick (q : QuickAction)
| EvClear
| EvToggle
| EvSave
| EvSettle (n : nat) (o : Outcome)
| EvTick (d : N).

Fixpoint jsstring_eqb (s t : jsstring) : bool :=
  match s, t with
  | [], [] => true
  | c :: s', d :: t' => (c =? d) && jsstring_eqb s' t'
  | _, _ => false
  end.

(** The hook's [transcript] takes the value [s]; the effect with the
    dependency list [[transcript]] runs when that is a change. *)
Definition transcriptChanged (s : jsstring) (w : World) : World :=
  if jsstring_eqb s (transcript (voice w)) then w
  else exec (modify_voice (fun v =>
               {| isListening := isListening v;
                  isSupported := isSupported v;
                  transcript := s;
                  interimTranscript := interimTranscript v;
                  error := error v |}) ;;
             transcriptEffect s) w.

(** The [n]-th suspended invocation resumes with the outcome [o]; it stays
    suspended when it reaches its next [await] and leaves otherwise. *)
Fixpoint settle (p : Props) (n : nat) (o : Outcome)
    (hs : list (State * Pending)) (w : World)
    : list (State * Pending) * World :=
  match hs, n with
  | [], _ => ([], w)
  | (r, k) :: hs', O =>
      match saveNote_resume p r k o w with
      | (Ok (Some k'), w') => ((r, k') :: hs', w')
      | (_, w') => (hs', w')
      end
  | h :: hs', S n' =>
      let (hs'', w') := settle p n' o hs' w in (h :: hs'', w')
  end.

Definition onWorld (f : World -> World) (m : Machine) : Machine :=
  {| world := f (world m); inflight := inflight m |}.

(** One event.  A click reaches its handler only when the control is
    rendered and enabled. *)
Definition step (p : Props) (ev : Event) (m : Machine) : Machine :=
  match ev with
  | EvResult text isFinal => onWorld (exec (onResult text isFinal)) m
  | EvError e => onWorld (exec (onError e)) m
  | EvTranscript s => onWorld (transcriptChanged s) m
  | EvSelect t =>
      if clickable (fun _ => false) (world m)
      then onWorld (exec (selectNoteType t)) m else m
  | EvQuick q =>
      if clickable (fun _ => false) (world m)
      then onWorld (exec (quick q)) m else m
  | EvClear =>
      if clickable clearDisabled (world m)
      then onWorld (exec clearTranscript) m else m
  | EvToggle =>
      if clickable toggleDisabled (world m)
      then onWorld toggleRecording m else m
  | EvSave =>
      if clickable saveDisabled (world m)
      then match saveNote_start p (st (world m)) (world m) with
           | (Ok (Some k), w') =>
               {| world := w';
                  inflight := inflight m ++ [(st (world m), k)] |}
           | (_, w') => {| world := w'; inflight := inflight m |}
           end
      else m
  | EvSettle n o =>
      let (hs, w') := settle p n o (inflight m) (world m) in
      {| world := w'; inflight := hs |}
  | EvTick d => onWorld (advance d) m
  end.

Definition run (p : Props) (evs : list Event) (m : Machine) : Machine :=
  fold_left (fun m ev => step p ev m) evs m.

(* ----------------------------------------------------------------- *)
(** *** Reading traces, strings and suspended invocations *)

Definition is_note_insert (e : Effect) : bool :=
  match e with
  | InsertNote _ => true
  | _ => false
  end.

Definition is_log_insert (e : Effect) : bool :=
  match e with
  | InsertLog _ => true
  | _ => false
  end.

Definition awaits_note (h : State * Pending) : bool :=
  match snd h with
  | AwaitNote => true
  | AwaitLog _ => false
  end.

Definition awaits_log (h : State * Pending) : bool :=
  negb (awaits_note h).

Definition is_settle (ev : Event) : bool :=
  match ev with
  | EvSettle _ _ => true
  | _ => false
  end.

(** Non-empty, and neither the first nor the last code unit is white
    space. *)
Definition trimmed (s : jsstring) : bool :=
  match s with
  | [] => false
  | c :: _ => negb (isWhiteSpace c) && negb (isWhiteSpace (last s c))
  end.



(** What the call of the callback adds to the trace. *)
Definition noteSaved_call (p : Props) (note : jsval) : list Effect :=
  match onNoteSaved p with
  | Some _ => [NoteSaved note]
  | None => []
  end.

(** The exception the call of the callback ends with, if any. *)
Definition noteSaved_throws (p : Props) (note : jsval) : option jsval :=
  match onNoteSaved p with
  | Some cb => cb note
  | None => None
  end.

(** The effects one uninterrupted run of [saveNote] adds to the trace. *)
Definition saveNote_emits (p : Props) (r : State) (o1 o2 : Outcome)
    : list Effect :=
  let failure e :=
    [ConsoleError (js "Error saving note:") e;
     Alert (js "Failed to save note. Please try again.")] in
  if negb (truthy_string (trim (currentTranscript r)))
  then [Alert (js "Please record some content before saving.")]
  else
    InsertNote (noteRow p r) ::
    match o1 with
    | Rejected e => failure e
    | Resolved resp =>
        if truthy (resp_error resp) then failure (resp_error resp)
        else
          InsertLog (logRow p r) ::
          match o2 with
          | Rejected e => failure e
          | Resolved _ =>
              ResetTranscript ::
              noteSaved_call p (data resp) ++
              match noteSaved_throws p (data resp) with
              | Some e => failure e
              | None => []
              end
          end
    end.

(** The world the [catch] and [finally] blocks leave when a suspended
    invocation resumes with the exception [e]. *)
Definition abandoned (w : World) (e : jsval) : World :=
  {| st := {| currentTranscript := currentTranscript (st w);
              savedNotes := savedNotes (st w);
              saving := false;
              noteType := noteType (st w);
              showSuccess := showSuccess (st w) |};
     voice := voice w; now := now w; timers := timers w;
     trace := (trace w ++ [ConsoleError (js "Error saving note:") e])
                ++ [Alert (js "Failed to save note. Please try again.")] |}.

(** The world after the note has been listed, the buffer emptied, the
    hook reset and a callback that throws been called. *)
Definition listedWorld (resp : Response) (w : World) : World :=
  {| st := {| currentTranscript := [];
              savedNotes := data resp :: savedNotes (st w);
              saving := saving (st w);
              noteType := noteType (st w);
              showSuccess := showSuccess (st w) |};
     voice := {| isListening := isListening (voice w);
                 isSupported := isSupported (voice w);
                 transcript := [];
                 interimTranscript := [];
                 error := error (voice w) |};
     now := now w;
     timers := timers w;
     trace := (trace w ++ [ResetTranscript]) ++ [NoteSaved (data resp)] |}.

(** The world the completion steps and the [finally] block leave when the
    second [await] resolves and the callback, if any, returns. *)
Definition completedWorld (p : Props) (resp : Response) (w : World) : World :=
  {| st := {| currentTranscript := [];
              savedNotes := data resp :: savedNotes (st w);
              saving := false;
              noteType := noteType (st w);
              showSuccess := true |};
     voice := {| isListening := isListening (voice w);
                 isSupported := isSupported (voice w);
                 transcript := [];
                 interimTranscript := [];
                 error := error (voice w) |};
     now := now w;
     timers := timers w ++ [(now w + 3000, HideSuccess)];
     trace := match onNoteSaved p with
              | Some _ =>
                  (trace w ++ [ResetTranscript]) ++ [NoteSaved (data resp)]
              | None => trace w ++ [ResetTranscript]
              end |}.

(** The events that are clicks on a rendered control. *)
Definition is_click (ev : Event) : bool :=
  match ev with
  | EvSelect _ | EvQuick _ | EvClear | EvToggle | EvSave => true
  | _ => false
  end.

(* ----------------------------------------------------------------- *)
(** *** Invariants of the machine *)

(** Every pending timer is due within the next 3000 ms, and while the
    success flag is up a timer is pending. *)
Definition timers_fresh (w : World) : Prop :=
  (forall t cb, In (t, cb) (timers w) -> now w < t /\ t <= now w + 3000) /\
  (showSuccess (st w) = true -> timers w <> []).

(** [saving] is up exactly while one invocation is suspended, and no
    second one is. *)
Definition single_flight (m : Machine) : Prop :=
  (saving (st (world m)) = false /\ inflight m = []) \/
  (saving (st (world m)) = true /\ exists h, inflight m = [h]).

(** The notes listed and the log inserts issued never outnumber the
    inserts they presuppose. *)
Definition ledger (m : Machine) : Prop :=
  (List.length (filter is_log_insert (trace (world m)))
     + List.length (filter awaits_note (inflight m))
   <= List.length (filter is_note_insert (trace (world m))))%nat /\
  (List.length (savedNotes (st (world m)))
     + List.length (filter awaits_log (inflight m))
   <= List.length (filter is_log_insert (trace (world m))))%nat.

(** The only notice is the failure notice, and every row written carries
    a trimmed text. *)
Definition clean_effect (e : Effect) : Prop :=
  match e with
  | Alert msg => msg = js "Failed to save note. Please try again."
  | InsertNote row => trimmed (content row) = true
  | InsertLog row => trimmed (transcribed_text row) = true
  | _ => True
  end.

Definition hygienic (m : Machine) : Prop :=
  Forall clean_effect (trace (world m)) /\
  Forall (fun h : State * Pending =>
            truthy_string (trim (currentTranscript (fst h))) = true)
         (inflight m).

(* ----------------------------------------------------------------- *)
(** *** What a failed save leaves, and proof automation *)

Ltac project :=
  cbn [negb fst snd st voice now timers trace currentTranscript savedNotes
       saving noteType showSuccess isListening isSupported transcript
       interimTranscript error data resp_error].

Ltac run_save H :=
  unfold save, saveNote; rewrite H;
  unfold exec, try_catch_finally, saveNote_try, saveNote_catch,
    callNoteSaved, resetTranscript, setSavedNotes, setCurrentTranscript,
    setShowSuccess, setSaving, setTimeout, modify_st, modify_voice, emit,
    bind, ret, throw;
  project.

Ltac run_saveNote :=
  unfold saveNote, exec, try_catch_finally, saveNote_try, saveNote_catch,
    callNoteSaved, resetTranscript, setSavedNotes, setCurrentTranscript,
    setShowSuccess, setSaving, setTimeout, modify_st, modify_voice, emit,
    bind, ret, throw;
  project.

Ltac machine :=
  cbn [world inflight negb fst snd st voice now timers trace
       currentTranscript savedNotes saving noteType showSuccess isListening
       isSupported transcript interimTranscript error data resp_error
       saveDisabled clearDisabled toggleDisabled placeholder andb orb].

Ltac handlers :=
  unfold onWorld, clickable, render, toggleRecording, handleToggleRecording,
    transcriptChanged, selectNoteType, clearTranscript, onResult, onError,
    transcriptEffect, startListening, stopListening, exec, resetTranscript,
    setSavedNotes, setCurrentTranscript, setShowSuccess, setSaving,
    setNoteType, setTimeout, modify_st, modify_voice, emit, bind, ret, throw.

Ltac split_ifs :=
  repeat (machine;
          match goal with
          | |- context [if ?b then _ else _] => destruct b eqn:?
          end);
  machine.

Ltac count_writes :=
  rewrite ?filter_app, ?length_app;
  cbn [filter is_log_insert is_note_insert awaits_note awaits_log snd
       negb List.length app];
  rewrite ?app_nil_r.

(** The state a failed save leaves: only [saving] is written. *)
Definition released (s : State) : State :=
  {| currentTranscript := currentTranscript s; savedNotes := savedNotes s;
     saving := false; noteType := noteType s; showSuccess := showSuccess s |}.

(** The world the [catch] and [finally] blocks leave when [e] is thrown
    after the effects [done]. *)
Definition failedWorld (w : World) (done : list Effect) (e : jsval) : World :=
  {| st := released (st w); voice := voice w; now := now w;
     timers := timers w;
     trace := ((trace w ++ done)
                 ++ [ConsoleError (js "Error saving note:") e])
                 ++ [Alert (js "Failed to save note. Please try again.")] |}.

(* ================================================================= *)
(** ** Trimming *)

Lemma trimStart_nil (s : jsstring) :
  trimStart s = [] <-> forallb isWhiteSpace s = true.
Proof.
  induction s as [|c s IH]; simpl.
  - tauto.
  - destruct (isWhiteSpace c); simpl.
    + exact IH.
    + split; discriminate.
Qed.

Lemma trimStart_suffix (s : jsstring) :
  exists pre, s = pre ++ trimStart s /\ forallb isWhiteSpace pre = true.
Proof.
  induction s as [|c s [pre [E W]]]; simpl.
  - exists []. split; reflexivity.
  - destruct (isWhiteSpace c) eqn:Hc.
    + exists (c :: pre). simpl. rewrite Hc, W. split; [congruence | reflexivity].
    + exists []. split; reflexivity.
Qed.

Lemma forallb_rev_true {A} (f : A -> bool) (l : list A) :
  forallb f (rev l) = true -> forallb f l = true.
Proof.
  rewrite !forallb_forall. intros H x Hx. apply H, in_rev.
  rewrite rev_involutive. exact Hx.
Qed.

(** The trimmed content is empty exactly for the empty and the
    whitespace-only strings. *)
Lemma trim_nil (s : jsstring) :
  trim s = [] <-> forallb isWhiteSpace s = true.
Proof.
  unfold trim, trimEnd. split.
  - intros H.
    assert (Hr : trimStart (rev (trimStart s)) = []).
    { rewrite <- (rev_involutive (trimStart (rev (trimStart s)))), H.
      reflexivity. }
    apply trimStart_nil, forallb_rev_true in Hr.
    destruct (trimStart_suffix s) as [pre [E W]].
    rewrite E, forallb_app, W, Hr. reflexivity.
  - intros H. apply trimStart_nil in H. rewrite H. reflexivity.
Qed.

Lemma truthy_string_false (s : jsstring) :
  truthy_string s = false <-> s = [].
Proof. destruct s; simpl; split; congruence. Qed.

(** The save button's guard [!currentTranscript.trim()] holds exactly for
    the empty and the whitespace-only buffers. *)
Lemma blank_guard (s : jsstring) :
  negb (truthy_string (trim s)) = true <-> forallb isWhiteSpace s = true.
Proof.
  rewrite negb_true_iff, truthy_string_false. apply trim_nil.
Qed.

(* ================================================================= *)
(** ** Timers *)

Lemma run_callbacks_showSuccess (cbs : list (N * Callback)) (w : World) :
  showSuccess (st (run_callbacks cbs w)) =
  match cbs with
  | [] => showSuccess (st w)
  | _ :: _ => false
  end.
Proof.
  revert w. induction cbs as [|[t cb] cbs IH]; intros w; simpl.
  - reflexivity.
  - rewrite IH. destruct cb. destruct cbs; reflexivity.
Qed.

Lemma filter_none {A} (f : A -> bool) (l : list A) :
  (forall x, In x l -> f x = false) -> filter f l = [].
Proof.
  induction l as [|a l IH]; intros H; simpl.
  - reflexivity.
  - rewrite (H a (or_introl eq_refl)). apply IH.
    intros x Hx. apply H. right. exact Hx.
Qed.

Lemma advance_fires (d : N) (w : World) (t : N) (cb : Callback) :
  In (t, cb) (timers w) -> t <= now w + d ->
  showSuccess (st (advance d w)) = false.
Proof.
  intros Hin Hle. unfold advance. rewrite run_callbacks_showSuccess.
  destruct (filter (is_due (now w + d)) (timers w)) eqn:E.
  - assert (Hf : In (t, cb) (filter (is_due (now w + d)) (timers w))).
    { apply filter_In. split; [exact Hin|].
      unfold is_due. simpl. apply N.leb_le. exact Hle. }
    rewrite E in Hf. destruct Hf.
  - reflexivity.
Qed.

Lemma advance_quiet (d : N) (w : World) :
  (forall tm, In tm (timers w) -> now w + d < fst tm) ->
  st (advance d w) = st w.
Proof.
  intros H. unfold advance.
  replace (filter (is_due (now w + d)) (timers w)) with (@nil (N * Callback)).
  - reflexivity.
  - symmetry. apply filter_none. intros tm Hin. unfold is_due.
    apply N.leb_gt. apply H. exact Hin.
Qed.

(* ================================================================= *)
(** ** The paths through [saveNote] *)

(** The guard rejects a blank buffer before anything else happens. *)
Lemma save_blank (p : Props) (o1 o2 : Outcome) (w : World) :
  truthy_string (trim (currentTranscript (st w))) = false ->
  save p o1 o2 w =
  {| st := st w; voice := voice w; now := now w; timers := timers w;
     trace := trace w
                ++ [Alert (js "Please record some content before saving.")] |}.
Proof. intros H. run_save H. reflexivity. Qed.

(** Step 1 rejects: the [await] throws. *)
Lemma save_step1_rejected (p : Props) (e : jsval) (o2 : Outcome) (w : World) :
  truthy_string (trim (currentTranscript (st w))) = true ->
  save p (Rejected e) o2 w =
  failedWorld w [InsertNote (noteRow p (st w))] e.
Proof. intros H. run_save H. reflexivity. Qed.

(** Step 1 resolves with an error: [if (error) throw error]. *)
Lemma save_step1_error (p : Props) (r1 : Response) (o2 : Outcome) (w : World) :
  truthy_string (trim (currentTranscript (st w))) = true ->
  truthy (resp_error r1) = true ->
  save p (Resolved r1) o2 w =
  failedWorld w [InsertNote (noteRow p (st w))] (resp_error r1).
Proof. intros H H1. run_save H. rewrite H1. reflexivity. Qed.

(** Step 1 succeeds and Step 2 rejects: the second [await] throws. *)
Lemma save_step2_rejected (p : Props) (r1 : Response) (e : jsval) (w : World) :
  truthy_string (trim (currentTranscript (st w))) = true ->
  truthy (resp_error r1) = false ->
  save p (Resolved r1) (Rejected e) w =
  failedWorld w
    [InsertNote (noteRow p (st w)); InsertLog (logRow p (st w))] e.
Proof.
  intros H H1. run_save H. rewrite H1. project. unfold failedWorld.
  rewrite <- !app_assoc. reflexivity.
Qed.

(** Step 1 succeeds, Step 2 resolves, whatever its response holds, and
    the callback, if any, returns. *)
Lemma save_completed (p : Props) (r1 r2 : Response) (w : World) :
  truthy_string (trim (currentTranscript (st w))) = true ->
  truthy (resp_error r1) = false ->
  noteSaved_throws p (data r1) = None ->
  save p (Resolved r1) (Resolved r2) w =
  {| st := {| currentTranscript := [];
              savedNotes := data r1 :: savedNotes (st w);
              saving := false;
              noteType := noteType (st w);
              showSuccess := true |};
     voice := {| isListening := isListening (voice w);
                 isSupported := isSupported (voice w);
                 transcript := [];
                 interimTranscript := [];
                 error := error (voice w) |};
     now := now w;
     timers := timers w ++ [(now w + 3000, HideSuccess)];
     trace := trace w
                ++ [InsertNote (noteRow p (st w));
                    InsertLog (logRow p (st w));
                    ResetTranscript]
                ++ noteSaved_call p (data r1) |}.
Proof.
  intros H H1 T. run_save H. rewrite H1. project.
  unfold noteSaved_call. unfold noteSaved_throws in T.
  destruct (onNoteSaved p) as [cb|]; project.
  - rewrite T. project. rewrite <- !app_assoc. reflexivity.
  - rewrite <- !app_assoc. reflexivity.
Qed.

(** Step 1 succeeds, Step 2 resolves and the callback throws: the note is
    listed, the buffer emptied and the hook reset, then the [catch] block
    takes over. *)
Lemma save_callback_throws (p : Props) (r1 r2 : Response) (e : jsval)
    (w : World) :
  truthy_string (trim (currentTranscript (st w))) = true ->
  truthy (resp_error r1) = false ->
  noteSaved_throws p (data r1) = Some e ->
  save p (Resolved r1) (Resolved r2) w =
  {| st := {| currentTranscript := [];
              savedNotes := data r1 :: savedNotes (st w);
              saving := false;
              noteType := noteType (st w);
              showSuccess := showSuccess (st w) |};
     voice := {| isListening := isListening (voice w);
                 isSupported := isSupported (voice w);
                 transcript := [];
                 interimTranscript := [];
                 error := error (voice w) |};
     now := now w;
     timers := timers w;
     trace := trace w
                ++ [InsertNote (noteRow p (st w));
                    InsertLog (logRow p (st w));
                    ResetTranscript;
                    NoteSaved (data r1);
                    ConsoleError (js "Error saving note:") e;
                    Alert (js "Failed to save note. Please try again.")] |}.
Proof.
  intros H H1 T. run_save H. rewrite H1. project.
  unfold noteSaved_throws in T.
  destruct (onNoteSaved p) as [cb|]; [|discriminate T]. project.
  rewrite T. project. rewrite <- !app_assoc. reflexivity.
Qed.

(** The second response is never read. *)
Lemma save_ignores_second_response (p : Props) (o1 : Outcome)
    (r2 r2' : Response) (w : World) :
  save p o1 (Resolved r2) w = save p o1 (Resolved r2') w.
Proof. reflexivity. Qed.

Lemma succeeded_false (o : Outcome) :
  succeeded o = false ->
  (exists e, o = Rejected e) \/
  (exists r, o = Resolved r /\ truthy (resp_error r) = true).
Proof.
  destruct o as [r|e]; simpl; intros H.
  - right. exists r. split; [reflexivity|]. now apply negb_false_iff.
  - left. now exists e.
Qed.

(* ================================================================= *)
(** ** Saving *)

(** C1 (as amended).  With a buffer whose trimmed content is non-empty,
    [save] issues exactly one Consultation Note insert carrying the
    consultation id, the author id, the selected category, the trimmed
    buffer, the voice flag [true] and confidence 0.95; when that insert
    succeeds it is followed by exactly one Transcription Log insert
    carrying the same ids, the same trimmed content, confidence 0.95,
    language code "en-US" and status "completed"; when it fails no
    Transcription Log insert is issued. *)
Theorem save_issues_writes (p : Props) (o1 o2 : Outcome) (w : World) :
  truthy_string (trim (currentTranscript (st w))) = true ->
  exists es,
    trace (save p o1 o2 w) = trace w ++ es /\
    filter is_write es =
      InsertNote
        {| consultation_id := consultationId p;
           doctor_id := doctorId p;
           note_type := noteType (st w);
           content := trim (currentTranscript (st w));
           is_voice_generated := true;
           voice_confidence_score := 95 # 100 |}
      :: (if succeeded o1
          then [InsertLog
                  {| vt_consultation_id := consultationId p;
                     vt_doctor_id := doctorId p;
                     transcribed_text := trim (currentTranscript (st w));
                     confidence_score := 95 # 100;
                     language_code := js "en-US";
                     processing_status := js "completed" |}]
          else []).
Proof.
  intros H. destruct o1 as [r1|e1].
  - destruct (truthy (resp_error r1)) eqn:H1.
    + rewrite (save_step1_error p r1 o2 w H H1). unfold failedWorld.
      cbn [trace succeeded]. rewrite H1. cbn [negb].
      eexists. rewrite <- !app_assoc. split; [reflexivity|]. reflexivity.
    + cbn [succeeded]. rewrite H1. cbn [negb]. destruct o2 as [r2|e2].
      * destruct (noteSaved_throws p (data r1)) as [e|] eqn:T.
        -- rewrite (save_callback_throws p r1 r2 e w H H1 T). cbn [trace].
           eexists. split; reflexivity.
        -- rewrite (save_completed p r1 r2 w H H1 T). cbn [trace].
           eexists. split; [reflexivity|].
           unfold noteSaved_call. destruct (onNoteSaved p); reflexivity.
      * rewrite (save_step2_rejected p r1 e2 w H H1). unfold failedWorld.
        cbn [trace]. eexists. rewrite <- !app_assoc.
        split; [reflexivity|]. reflexivity.
  - rewrite (save_step1_rejected p e1 o2 w H). unfold failedWorld.
    cbn [trace succeeded].
    eexists. rewrite <- !app_assoc. split; [reflexivity|]. reflexivity.
Qed.

Lemma save_issues_writes_witness :
  truthy_string
    (trim (currentTranscript (st (bufferWorld (js " chest pain "))))) = true /\
  exists es,
    trace (save demoProps (created demoNote) (created JNull)
             (bufferWorld (js " chest pain "))) =
      trace (bufferWorld (js " chest pain ")) ++ es /\
    filter is_write es =
      [InsertNote
         {| consultation_id := js "consultation-1";
            doctor_id := js "doctor-1";
            note_type := general;
            content := js "chest pain";
            is_voice_generated := true;
            voice_confidence_score := 95 # 100 |};
       InsertLog
         {| vt_consultation_id := js "consultation-1";
            vt_doctor_id := js "doctor-1";
            transcribed_text := js "chest pain";
            confidence_score := 95 # 100;
            language_code := js "en-US";
            processing_status := js "completed" |}].
Proof.
  split.
  - reflexivity.
  - exact (save_issues_writes demoProps (created demoNote) (created JNull)
             (bufferWorld (js " chest pain ")) eq_refl).
Defined.

(** C1, counterexample.  The buffer "x" trims to a non-empty string, the
    store answers the first insert with an error: the note insert is the
    only write, so the writes are not a note insert followed by a log
    insert. *)
Lemma save_refused_issues_no_log :
  truthy_string (trim (currentTranscript (st (bufferWorld (js "x"))))) = true /\
  filter is_write
    (trace (save demoProps refused (created JNull) (bufferWorld (js "x")))) =
    [InsertNote (noteRow demoProps (st (bufferWorld (js "x"))))] /\
  ~ (exists es,
       trace (save demoProps refused (created JNull) (bufferWorld (js "x"))) =
         trace (bufferWorld (js "x")) ++ es /\
       filter is_write es =
         [InsertNote (noteRow demoProps (st (bufferWorld (js "x"))));
          InsertLog (logRow demoProps (st (bufferWorld (js "x"))))]).
Proof.
  split; [reflexivity|]. split; [reflexivity|].
  intros [es [E F]]. cbn [bufferWorld initialWorld exec trace] in E.
  change (trace (snd (setCurrentTranscript (fun _ => js "x") initialWorld)))
    with (@nil Effect) in E.
  rewrite app_nil_l in E. subst es. vm_compute in F. discriminate F.
Qed.

(** C5.  With a buffer whose trimmed content is empty, [save] issues no
    write and leaves the buffer, the category, the saving flag, the
    success flag, the recent-saves list, the hook and the timers as they
    were: the only thing that happens is the blocking notice. *)
Theorem save_blank_buffer (p : Props) (o1 o2 : Outcome) (w : World) :
  trim (currentTranscript (st w)) = [] ->
  let w' := save p o1 o2 w in
  st w' = st w /\
  voice w' = voice w /\
  timers w' = timers w /\
  trace w' =
    trace w ++ [Alert (js "Please record some content before saving.")] /\
  filter is_write (trace w') = filter is_write (trace w).
Proof.
  intros H w'. subst w'.
  rewrite (save_blank p o1 o2 w (proj2 (truthy_string_false _) H)).
  cbn [st voice timers trace]. repeat split.
  rewrite filter_app. cbn. apply app_nil_r.
Qed.

Lemma save_blank_buffer_witness :
  trim (currentTranscript (st (bufferWorld [32; 9; 10; 160]))) = [] /\
  let w' := save demoProps (created demoNote) (created JNull)
              (bufferWorld [32; 9; 10; 160]) in
  st w' = st (bufferWorld [32; 9; 10; 160]) /\
  voice w' = voice (bufferWorld [32; 9; 10; 160]) /\
  timers w' = timers (bufferWorld [32; 9; 10; 160]) /\
  trace w' =
    trace (bufferWorld [32; 9; 10; 160])
      ++ [Alert (js "Please record some content before saving.")] /\
  filter is_write (trace w') =
    filter is_write (trace (bufferWorld [32; 9; 10; 160])).
Proof.
  split.
  - reflexivity.
  - exact (save_blank_buffer demoProps (created demoNote) (created JNull)
             (bufferWorld [32; 9; 10; 160]) eq_refl).
Defined.

(** C4.  With a non-blank buffer and a first insert that fails (the store
    answers with an error, or the call throws), [save] surfaces the notice
    "Failed to save note. Please try again.", issues no Transcription Log
    insert, leaves the buffer, the recent-saves list, the success flag and
    the timers as they were, and ends with [saving = false]. *)
Theorem save_step1_failure (p : Props) (o1 o2 : Outcome) (w : World) :
  truthy_string (trim (currentTranscript (st w))) = true ->
  succeeded o1 = false ->
  let w' := save p o1 o2 w in
  (exists e,
     trace w' =
       trace w ++ [InsertNote (noteRow p (st w));
                   ConsoleError (js "Error saving note:") e;
                   Alert (js "Failed to save note. Please try again.")]) /\
  currentTranscript (st w') = currentTranscript (st w) /\
  savedNotes (st w') = savedNotes (st w) /\
  noteType (st w') = noteType (st w) /\
  showSuccess (st w') = showSuccess (st w) /\
  timers w' = timers w /\
  voice w' = voice w /\
  saving (st w') = false.
Proof.
  intros H F w'. subst w'.
  destruct (succeeded_false o1 F) as [[e ->] | [r1 [-> H1]]].
  - rewrite (save_step1_rejected p e o2 w H). unfold failedWorld.
    cbn [st voice timers trace released currentTranscript savedNotes
         noteType showSuccess saving].
    repeat split. exists e. rewrite <- !app_assoc. reflexivity.
  - rewrite (save_step1_error p r1 o2 w H H1). unfold failedWorld.
    cbn [st voice timers trace released currentTranscript savedNotes
         noteType showSuccess saving].
    repeat split. exists (resp_error r1). rewrite <- !app_assoc.
    reflexivity.
Qed.

Lemma save_step1_failure_witness :
  truthy_string
    (trim (currentTranscript (st (bufferWorld (js "fever since Monday")))))
    = true /\
  succeeded refused = false /\
  let w := bufferWorld (js "fever since Monday") in
  let w' := save demoProps refused (created JNull) w in
  (exists e,
     trace w' =
       trace w ++ [InsertNote (noteRow demoProps (st w));
                   ConsoleError (js "Error saving note:") e;
                   Alert (js "Failed to save note. Please try again.")]) /\
  currentTranscript (st w') = currentTranscript (st w) /\
  savedNotes (st w') = savedNotes (st w) /\
  noteType (st w') = noteType (st w) /\
  showSuccess (st w') = showSuccess (st w) /\
  timers w' = timers w /\
  voice w' = voice w /\
  saving (st w') = false.
Proof.
  split; [reflexivity|]. split; [reflexivity|].
  exact (save_step1_failure demoProps refused (created JNull)
           (bufferWorld (js "fever since Monday")) eq_refl eq_refl).
Defined.

(** C6 (as amended).  After a save in which both inserts resolve without
    error, the created note heads the recent-saves list, the buffer is
    empty, the hook's reset has been invoked (its transcript and interim
    text are empty), [onNoteSaved] has been called with the created note
    when it is supplied, and [saving] is false.  When the callback is
    absent or returns, the success flag is up, stays up for less than
    3000 ms as long as no older timer falls due, and is down once the
    3000 ms timer has run; when the callback throws, the [catch] block
    raises the failure notice and the success flag and the timers are
    left as they were. *)
Theorem save_success (p : Props) (r1 r2 : Response) (w : World) :
  truthy_string (trim (currentTranscript (st w))) = true ->
  truthy (resp_error r1) = false ->
  truthy (resp_error r2) = false ->
  let w' := save p (Resolved r1) (Resolved r2) w in
  savedNotes (st w') = data r1 :: savedNotes (st w) /\
  currentTranscript (st w') = [] /\
  transcript (voice w') = [] /\
  interimTranscript (voice w') = [] /\
  saving (st w') = false /\
  match noteSaved_throws p (data r1) with
  | None =>
      trace w' =
        trace w ++ [InsertNote (noteRow p (st w));
                    InsertLog (logRow p (st w));
                    ResetTranscript]
                ++ noteSaved_call p (data r1) /\
      showSuccess (st w') = true /\
      timers w' = timers w ++ [(now w + 3000, HideSuccess)] /\
      (forall d, 3000 <= d -> showSuccess (st (advance d w')) = false) /\
      (forall d, d < 3000 ->
         (forall tm, In tm (timers w) -> now w + d < fst tm) ->
         showSuccess (st (advance d w')) = true)
  | Some e =>
      trace w' =
        trace w ++ [InsertNote (noteRow p (st w));
                    InsertLog (logRow p (st w));
                    ResetTranscript;
                    NoteSaved (data r1);
                    ConsoleError (js "Error saving note:") e;
                    Alert (js "Failed to save note. Please try again.")] /\
      showSuccess (st w') = showSuccess (st w) /\
      timers w' = timers w
  end.
Proof.
  intros H H1 _ w'. subst w'.
  destruct (noteSaved_throws p (data r1)) as [e|] eqn:T.
  - rewrite (save_callback_throws p r1 r2 e w H H1 T).
    cbn [st voice timers trace currentTranscript savedNotes showSuccess
         saving transcript interimTranscript].
    repeat split.
  - rewrite (save_completed p r1 r2 w H H1 T).
    cbn [st voice timers trace currentTranscript savedNotes showSuccess
         saving transcript interimTranscript].
    repeat split.
    + intros d Hd. apply (advance_fires d _ (now w + 3000) HideSuccess).
      * cbn [timers]. apply in_or_app. right. left. reflexivity.
      * cbn [now]. lia.
    + intros d Hd Hold. rewrite advance_quiet.
      * reflexivity.
      * cbn [timers now]. intros tm Hin. apply in_app_or in Hin.
        destruct Hin as [Hin | [<- | []]].
        -- exact (Hold tm Hin).
        -- cbn [fst]. lia.
Qed.

Lemma save_success_witness :
  truthy_string
    (trim (currentTranscript (st (bufferWorld (js "  mild cough "))))) = true /\
  truthy JNull = false /\
  let w := bufferWorld (js "  mild cough ") in
  let w' := save demoProps (created demoNote) (created JNull) w in
  savedNotes (st w') = [demoNote] /\
  currentTranscript (st w') = [] /\
  transcript (voice w') = [] /\
  interimTranscript (voice w') = [] /\
  saving (st w') = false /\
  trace w' =
    trace w ++ [InsertNote (noteRow demoProps (st w));
                InsertLog (logRow demoProps (st w));
                ResetTranscript]
            ++ [NoteSaved demoNote] /\
  showSuccess (st w') = true /\
  timers w' = timers w ++ [(now w + 3000, HideSuccess)] /\
  (forall d, 3000 <= d -> showSuccess (st (advance d w')) = false) /\
  (forall d, d < 3000 ->
     (forall tm, In tm (timers w) -> now w + d < fst tm) ->
     showSuccess (st (advance d w')) = true).
Proof.
  split; [reflexivity|]. split; [reflexivity|].
  exact (save_success demoProps
           {| data := demoNote; resp_error := JNull |}
           {| data := JNull; resp_error := JNull |}
           (bufferWorld (js "  mild cough ")) eq_refl eq_refl eq_refl).
Defined.

(** C6, counterexample.  Both inserts resolve without error and the
    supplied callback throws: the note is listed and the buffer emptied,
    but the success flag never goes up, no timer is set and the user is
    shown the failure notice. *)
Lemma save_success_callback_throws :
  truthy_string (trim (currentTranscript (st (bufferWorld (js "x"))))) = true /\
  succeeded (created demoNote) = true /\
  succeeded (created JNull) = true /\
  savedNotes
    (st (save throwingProps (created demoNote) (created JNull)
           (bufferWorld (js "x")))) = [demoNote] /\
  showSuccess
    (st (save throwingProps (created demoNote) (created JNull)
           (bufferWorld (js "x")))) = false /\
  timers (save throwingProps (created demoNote) (created JNull)
            (bufferWorld (js "x"))) = [] /\
  filter is_notice
    (trace (save throwingProps (created demoNote) (created JNull)
              (bufferWorld (js "x")))) =
    [Alert (js "Failed to save note. Please try again.")].
Proof. repeat split. Qed.

(** X7.  While no older timer is pending and the callback, if any,
    returns, the success flag stays up for the whole window. *)
Lemma save_success_banner_window (p : Props) (r1 r2 : Response) (w : World)
    (d : N) :
  truthy_string (trim (currentTranscript (st w))) = true ->
  truthy (resp_error r1) = false ->
  noteSaved_throws p (data r1) = None ->
  timers w = [] ->
  d < 3000 ->
  showSuccess (st (advance d (save p (Resolved r1) (Resolved r2) w))) = true.
Proof.
  intros H H1 C T Hd. rewrite (save_completed p r1 r2 w H H1 C).
  rewrite advance_quiet.
  - reflexivity.
  - cbn [timers now]. rewrite T. intros tm [<- | []]. cbn [fst]. lia.
Qed.

(** C3 (as amended).  With a non-blank buffer and a first insert that
    succeeded: when the second insert resolves with an error in its
    response, the error is not read, nothing undoes the first insert and
    the save ends exactly as one whose second insert reported no error:
    the note is prepended and the buffer cleared, and, the callback being
    absent or returning, the hook is reset, the callback invoked, the
    success flag up and no notice raised.  When the second call throws
    instead, the [catch] block raises the failure notice and the
    completion steps are skipped, the first insert still standing. *)
Theorem save_step2_failure (p : Props) (r1 : Response) (o2 : Outcome)
    (w : World) :
  truthy_string (trim (currentTranscript (st w))) = true ->
  truthy (resp_error r1) = false ->
  succeeded o2 = false ->
  match o2 with
  | Resolved r2 =>
      (forall r2', truthy (resp_error r2') = false ->
         save p (Resolved r1) (Resolved r2) w =
         save p (Resolved r1) (Resolved r2') w) /\
      savedNotes (st (save p (Resolved r1) (Resolved r2) w)) =
        data r1 :: savedNotes (st w) /\
      currentTranscript (st (save p (Resolved r1) (Resolved r2) w)) = [] /\
      (noteSaved_throws p (data r1) = None ->
       trace (save p (Resolved r1) (Resolved r2) w) =
         trace w ++ [InsertNote (noteRow p (st w));
                     InsertLog (logRow p (st w));
                     ResetTranscript]
                 ++ noteSaved_call p (data r1) /\
       showSuccess (st (save p (Resolved r1) (Resolved r2) w)) = true)
  | Rejected e =>
      trace (save p (Resolved r1) (Rejected e) w) =
        trace w ++ [InsertNote (noteRow p (st w));
                    InsertLog (logRow p (st w));
                    ConsoleError (js "Error saving note:") e;
                    Alert (js "Failed to save note. Please try again.")] /\
      st (save p (Resolved r1) (Rejected e) w) = released (st w) /\
      voice (save p (Resolved r1) (Rejected e) w) = voice w /\
      timers (save p (Resolved r1) (Rejected e) w) = timers w
  end.
Proof.
  intros H H1 F. destruct o2 as [r2|e].
  - split; [|split; [|split]].
    + intros r2' _. apply save_ignores_second_response.
    + destruct (noteSaved_throws p (data r1)) as [e|] eqn:T.
      * rewrite (save_callback_throws p r1 r2 e w H H1 T). reflexivity.
      * rewrite (save_completed p r1 r2 w H H1 T). reflexivity.
    + destruct (noteSaved_throws p (data r1)) as [e|] eqn:T.
      * rewrite (save_callback_throws p r1 r2 e w H H1 T). reflexivity.
      * rewrite (save_completed p r1 r2 w H H1 T). reflexivity.
    + intros T. rewrite (save_completed p r1 r2 w H H1 T).
      split; reflexivity.
  - rewrite (save_step2_rejected p r1 e w H H1). unfold failedWorld.
    cbn [st voice timers trace]. repeat split.
    rewrite <- !app_assoc. reflexivity.
Qed.

Lemma save_step2_failure_witness :
  truthy_string
    (trim (currentTranscript (st (bufferWorld (js "rash on left arm")))))
    = true /\
  truthy JNull = false /\
  succeeded refused = false /\
  save demoProps (created demoNote) refused
    (bufferWorld (js "rash on left arm")) =
  save demoProps (created demoNote) (created JNull)
    (bufferWorld (js "rash on left arm")).
Proof.
  split; [reflexivity|]. split; [reflexivity|]. split; [reflexivity|].
  exact (proj1 (save_step2_failure demoProps
                  {| data := demoNote; resp_error := JNull |} refused
                  (bufferWorld (js "rash on left arm"))
                  eq_refl eq_refl eq_refl)
           {| data := JNull; resp_error := JNull |} eq_refl).
Defined.

(** C3, counterexample.  The first insert succeeds and the second call
    throws: the user is shown the failure notice, the buffer is kept, the
    note is not added to the recent-saves list and the success flag stays
    down, unlike the save in which both inserts succeed. *)
Lemma save_step2_throw_is_surfaced :
  succeeded (created demoNote) = true /\
  succeeded (Rejected (JStr (js "network down"))) = false /\
  filter is_notice
    (trace (save demoProps (created demoNote)
              (Rejected (JStr (js "network down")))
              (bufferWorld (js "rash on left arm")))) =
    [Alert (js "Failed to save note. Please try again.")] /\
  st (save demoProps (created demoNote)
        (Rejected (JStr (js "network down")))
        (bufferWorld (js "rash on left arm"))) =
    st (bufferWorld (js "rash on left arm")) /\
  save demoProps (created demoNote) (Rejected (JStr (js "network down")))
    (bufferWorld (js "rash on left arm")) <>
  save demoProps (created demoNote) (created JNull)
    (bufferWorld (js "rash on left arm")).
Proof.
  repeat (split; [reflexivity|]).
  intros E. apply (f_equal (fun w => showSuccess (st w))) in E.
  vm_compute in E. discriminate E.
Qed.

(* ================================================================= *)
(** ** Adapter snapshots *)

(** C2 (as amended).  When the hook's cumulative transcript changes to a
    non-empty snapshot [S], the buffer is replaced by [S], whatever it
    held; nothing else changes. *)
Theorem transcriptEffect_overwrites (S : jsstring) (w : World) :
  truthy_string S = true ->
  let w' := exec (transcriptEffect S) w in
  currentTranscript (st w') = S /\
  savedNotes (st w') = savedNotes (st w) /\
  saving (st w') = saving (st w) /\
  noteType (st w') = noteType (st w) /\
  showSuccess (st w') = showSuccess (st w) /\
  voice w' = voice w /\
  timers w' = timers w /\
  trace w' = trace w.
Proof.
  intros H w'. subst w'. unfold transcriptEffect. rewrite H.
  repeat split.
Qed.

Lemma transcriptEffect_overwrites_witness :
  truthy_string (js "patient is stable") = true /\
  currentTranscript
    (st (exec (transcriptEffect (js "patient is stable"))
           (bufferWorld (js "patient is stabel (edited)")))) =
  js "patient is stable".
Proof.
  split.
  - reflexivity.
  - exact (proj1 (transcriptEffect_overwrites (js "patient is stable")
                    (bufferWorld (js "patient is stabel (edited)"))
                    eq_refl)).
Defined.

(** C2, counterexample.  The snapshot is the empty string and the buffer
    holds "edited": afterwards the buffer is still "edited", not the
    snapshot. *)
Lemma transcriptEffect_empty_snapshot :
  currentTranscript
    (st (exec (transcriptEffect []) (bufferWorld (js "edited")))) =
    js "edited" /\
  currentTranscript
    (st (exec (transcriptEffect []) (bufferWorld (js "edited")))) <> [].
Proof.
  split; [reflexivity | discriminate].
Qed.

(** C9.  When the hook's cumulative transcript changes to the empty
    string the effect does nothing: the buffer, like the rest of the
    world, is what it was. *)
Theorem transcriptEffect_empty_keeps_buffer (B : jsstring) (w : World) :
  currentTranscript (st w) = B ->
  exec (transcriptEffect []) w = w /\
  currentTranscript (st (exec (transcriptEffect []) w)) = B.
Proof.
  intros H. split; [reflexivity | exact H].
Qed.

Lemma transcriptEffect_empty_keeps_buffer_witness :
  currentTranscript (st (bufferWorld (js "typed by hand"))) =
    js "typed by hand" /\
  currentTranscript
    (st (exec (transcriptEffect []) (bufferWorld (js "typed by hand")))) =
    js "typed by hand".
Proof.
  split.
  - reflexivity.
  - exact (proj2 (transcriptEffect_empty_keeps_buffer (js "typed by hand")
                    (bufferWorld (js "typed by hand")) eq_refl)).
Defined.

(* ================================================================= *)
(** ** Quick actions, clearing and the record button *)

(** C7.  From the buffer "Patient reports headache" and the category
    [general], the "+ Diagnosis" quick action leaves the buffer
    "Patient reports headache Diagnosis: " and the category
    [diagnosis]. *)
Theorem quickDiagnosis_example (w : World) :
  currentTranscript (st w) = js "Patient reports headache" ->
  noteType (st w) = general ->
  currentTranscript (st (exec quickDiagnosis w)) =
    js "Patient reports headache Diagnosis: " /\
  noteType (st (exec quickDiagnosis w)) = diagnosis.
Proof.
  intros Hb _. unfold quickDiagnosis, exec, bind, setCurrentTranscript,
    setNoteType, modify_st.
  cbn [fst snd st currentTranscript noteType]. rewrite Hb.
  split; reflexivity.
Qed.

Lemma quickDiagnosis_example_witness :
  currentTranscript (st (bufferWorld (js "Patient reports headache"))) =
    js "Patient reports headache" /\
  noteType (st (bufferWorld (js "Patient reports headache"))) = general /\
  currentTranscript
    (st (exec quickDiagnosis (bufferWorld (js "Patient reports headache")))) =
    js "Patient reports headache Diagnosis: " /\
  noteType
    (st (exec quickDiagnosis (bufferWorld (js "Patient reports headache")))) =
    diagnosis.
Proof.
  split; [reflexivity|]. split; [reflexivity|].
  exact (quickDiagnosis_example (bufferWorld (js "Patient reports headache"))
           eq_refl eq_refl).
Defined.

(** Every quick action appends its snippet and selects its category. *)
Lemma quick_actions_prefill (w : World) :
  st (exec quickSymptoms w) =
    {| currentTranscript :=
         currentTranscript (st w) ++ js " Patient presents with ";
       savedNotes := savedNotes (st w); saving := saving (st w);
       noteType := symptoms; showSuccess := showSuccess (st w) |} /\
  st (exec quickDiagnosis w) =
    {| currentTranscript := currentTranscript (st w) ++ js " Diagnosis: ";
       savedNotes := savedNotes (st w); saving := saving (st w);
       noteType := diagnosis; showSuccess := showSuccess (st w) |} /\
  st (exec quickPrescription w) =
    {| currentTranscript := currentTranscript (st w) ++ js " Prescribed: ";
       savedNotes := savedNotes (st w); saving := saving (st w);
       noteType := prescription; showSuccess := showSuccess (st w) |} /\
  st (exec quickFollowUp w) =
    {| currentTranscript := currentTranscript (st w) ++ js " Follow-up in ";
       savedNotes := savedNotes (st w); saving := saving (st w);
       noteType := follow_up; showSuccess := showSuccess (st w) |}.
Proof. repeat split. Qed.

(** C10.  [clearTranscript] empties the buffer and invokes the hook's
    reset; the category, the recent-saves list, the saving flag, the
    success flag and the timers are untouched. *)
Theorem clearTranscript_frame (w : World) :
  noteType (st (exec clearTranscript w)) = noteType (st w) /\
  savedNotes (st (exec clearTranscript w)) = savedNotes (st w) /\
  saving (st (exec clearTranscript w)) = saving (st w) /\
  showSuccess (st (exec clearTranscript w)) = showSuccess (st w) /\
  timers (exec clearTranscript w) = timers w /\
  currentTranscript (st (exec clearTranscript w)) = [] /\
  trace (exec clearTranscript w) = trace w ++ [ResetTranscript].
Proof. repeat split. Qed.

(** The hook operations are idempotent on the hook's state. *)
Lemma startListening_idempotent (w : World) :
  voice (exec startListening (exec startListening w)) =
  voice (exec startListening w).
Proof. reflexivity. Qed.

Lemma stopListening_idempotent (w : World) :
  voice (exec stopListening (exec stopListening w)) =
  voice (exec stopListening w).
Proof. reflexivity. Qed.

(** C8.  The record button's handler invokes the hook's stop when the
    render it belongs to is listening and the hook's start when it is not,
    and touches nothing of the component's own state; once the hook has
    carried the operation out the listening state is the opposite one; the
    same handler invoked again, the hook being in the target state
    already, invokes the same operation and leaves the hook's state as it
    is. *)
Theorem toggleRecording_flips (w : World) :
  trace (toggleRecording w) =
    trace w ++ [if isListening (voice w) then StopListening
                else StartListening] /\
  st (toggleRecording w) = st w /\
  isListening (voice (toggleRecording w)) = negb (isListening (voice w)) /\
  trace (exec (handleToggleRecording (isListening (voice w)))
           (toggleRecording w)) =
    trace (toggleRecording w)
      ++ [if isListening (voice w) then StopListening else StartListening] /\
  voice (exec (handleToggleRecording (isListening (voice w)))
           (toggleRecording w)) =
    voice (toggleRecording w).
Proof.
  unfold toggleRecording, handleToggleRecording.
  destruct (isListening (voice w)); repeat split.
Qed.

(** Two clicks, each on an up-to-date render, bring the listening state
    back. *)
Lemma toggleRecording_twice (w : World) :
  isListening (voice (toggleRecording (toggleRecording w))) =
  isListening (voice w).
Proof.
  unfold toggleRecording, handleToggleRecording.
  destruct (isListening (voice w)); reflexivity.
Qed.

(** The [onResult] option appends a final result after a space and drops
    an interim one. *)
Lemma onResult_final (text : jsstring) (w : World) :
  currentTranscript (st (exec (onResult text true) w)) =
    currentTranscript (st w) ++ js " " ++ text /\
  exec (onResult text false) w = w.
Proof. split; reflexivity. Qed.

(* ================================================================= *)
(** ** More on [saveNote] *)

Lemma trimStart_head (s : jsstring) (c : N) (t : jsstring) :
  trimStart s = c :: t -> isWhiteSpace c = false.
Proof.
  induction s as [|a s IH]; simpl.
  - discriminate.
  - destruct (isWhiteSpace a) eqn:Ha.
    + exact IH.
    + intros E. injection E as -> _. exact Ha.
Qed.

(** What [trim] returns is empty or starts and ends with a code unit that
    is not white space. *)
Lemma trim_trimmed (s : jsstring) :
  truthy_string (trim s) = true -> trimmed (trim s) = true.
Proof.
  unfold trim, trimEnd. intros H.
  destruct (trimStart_suffix (rev (trimStart s))) as [pre [E _]].
  destruct (trimStart (rev (trimStart s))) as [|d u] eqn:Eu.
  - discriminate H.
  - assert (Hd : isWhiteSpace d = false) by exact (trimStart_head _ _ _ Eu).
    apply (f_equal (@rev N)) in E. rewrite rev_involutive, rev_app_distr in E.
    remember (rev (d :: u)) as x eqn:Ex.
    destruct x as [|c x'].
    + discriminate H.
    + assert (Hc : isWhiteSpace c = false).
      { apply (trimStart_head s c (x' ++ rev pre)). rewrite E. reflexivity. }
      unfold trimmed. rewrite Hc. rewrite Ex. cbn [rev].
      rewrite last_last, Hd. reflexivity.
Qed.

Lemma saveNote_trace (p : Props) (r : State) (o1 o2 : Outcome) (w : World) :
  trace (exec (saveNote p r o1 o2) w) = trace w ++ saveNote_emits p r o1 o2.
Proof.
  unfold saveNote_emits. run_saveNote.
  destruct (truthy_string (trim (currentTranscript r))); project.
  - destruct o1 as [r1|e1]; project.
    + destruct (truthy (resp_error r1)); project.
      * rewrite <- !app_assoc. reflexivity.
      * destruct o2 as [r2|e2]; project.
        -- unfold noteSaved_call, noteSaved_throws.
           destruct (onNoteSaved p) as [cb|]; project.
           ++ destruct (cb (data r1)); project; rewrite <- !app_assoc;
                reflexivity.
           ++ rewrite <- !app_assoc. reflexivity.
        -- rewrite <- !app_assoc. reflexivity.
    + rewrite <- !app_assoc. reflexivity.
  - reflexivity.
Qed.

(** X1.  No exception escapes [saveNote], whatever closure it runs with
    and whatever the two store calls yield; [saving] is false afterwards
    whenever the guard let the save through, and untouched otherwise. *)
Theorem saveNote_returns_normally (p : Props) (r : State) (o1 o2 : Outcome)
    (w : World) :
  fst (saveNote p r o1 o2 w) = Ok tt /\
  saving (st (exec (saveNote p r o1 o2) w)) =
    if truthy_string (trim (currentTranscript r)) then false
    else saving (st w).
Proof.
  run_saveNote.
  destruct (truthy_string (trim (currentTranscript r))); project.
  - destruct o1 as [r1|e1]; project.
    + destruct (truthy (resp_error r1)); project.
      * split; reflexivity.
      * destruct o2 as [r2|e2]; project.
        -- destruct (onNoteSaved p) as [cb|]; project.
           ++ destruct (cb (data r1)); split; reflexivity.
           ++ split; reflexivity.
        -- split; reflexivity.
    + split; reflexivity.
  - split; reflexivity.
Qed.

(** X2.  Every row an invocation of [saveNote] hands to the store carries
    a text that is non-empty and neither starts nor ends with white
    space. *)
Theorem saveNote_rows_trimmed (p : Props) (r : State) (o1 o2 : Outcome)
    (w : World) (es : list Effect) :
  trace (exec (saveNote p r o1 o2) w) = trace w ++ es ->
  (forall row, In (InsertNote row) es -> trimmed (content row) = true) /\
  (forall row, In (InsertLog row) es ->
     trimmed (transcribed_text row) = true).
Proof.
  rewrite saveNote_trace. intros E. apply app_inv_head in E. subst es.
  unfold saveNote_emits.
  destruct (truthy_string (trim (currentTranscript r))) eqn:G; cbn [negb].
  - pose proof (trim_trimmed _ G) as T.
    assert (N1 : forall row, InsertNote (noteRow p r) = InsertNote row ->
                   trimmed (content row) = true).
    { intros row E. injection E as <-. exact T. }
    assert (L1 : forall row, InsertLog (logRow p r) = InsertLog row ->
                   trimmed (transcribed_text row) = true).
    { intros row E. injection E as <-. exact T. }
    split; intros row Hin;
      destruct o1 as [r1|e1]; [destruct (truthy (resp_error r1))| |
                               destruct (truthy (resp_error r1))| ];
      try destruct o2 as [r2|e2];
      unfold noteSaved_call, noteSaved_throws in Hin;
      try destruct (onNoteSaved p) as [cb|];
      try destruct (cb (data r1));
      cbn [In app] in Hin;
      repeat match goal with
             | H : _ \/ _ |- _ => destruct H
             | H : False |- _ => destruct H
             | H : InsertNote _ = InsertNote _ |- _ => exact (N1 _ H)
             | H : InsertLog _ = InsertLog _ |- _ => exact (L1 _ H)
             | H : _ = _ |- _ => discriminate H
             end.
  - split; intros row [Hin | []]; discriminate Hin.
Qed.

Lemma saveNote_rows_trimmed_witness :
  trace (exec (saveNote demoProps (st (bufferWorld (js " sore throat  ")))
                 (created demoNote) (created JNull))
           (bufferWorld (js " sore throat  "))) =
    trace (bufferWorld (js " sore throat  "))
      ++ saveNote_emits demoProps (st (bufferWorld (js " sore throat  ")))
           (created demoNote) (created JNull) /\
  (forall row,
     In (InsertNote row)
        (saveNote_emits demoProps (st (bufferWorld (js " sore throat  ")))
           (created demoNote) (created JNull)) ->
     trimmed (content row) = true) /\
  (forall row,
     In (InsertLog row)
        (saveNote_emits demoProps (st (bufferWorld (js " sore throat  ")))
           (created demoNote) (created JNull)) ->
     trimmed (transcribed_text row) = true).
Proof.
  split.
  - vm_compute. reflexivity.
  - refine (saveNote_rows_trimmed demoProps
              (st (bufferWorld (js " sore throat  ")))
              (created demoNote) (created JNull)
              (bufferWorld (js " sore throat  "))
              (saveNote_emits demoProps
                 (st (bufferWorld (js " sore throat  ")))
                 (created demoNote) (created JNull)) _).
    vm_compute. reflexivity.
Defined.

Lemma quick_unblanks (q : QuickAction) (s : jsstring) :
  truthy_string (trim (s ++ quickSnippet q)) = true.
Proof.
  destruct (truthy_string (trim (s ++ quickSnippet q))) eqn:E.
  - reflexivity.
  - apply truthy_string_false, trim_nil in E.
    rewrite forallb_app in E. apply andb_true_iff in E.
    destruct E as [_ E]. destruct q; vm_compute in E; discriminate E.
Qed.

Lemma quick_world (q : QuickAction) (w : World) :
  exec (quick q) w =
  {| st := {| currentTranscript := currentTranscript (st w) ++ quickSnippet q;
              savedNotes := savedNotes (st w);
              saving := saving (st w);
              noteType := quickType q;
              showSuccess := showSuccess (st w) |};
     voice := voice w; now := now w; timers := timers w;
     trace := trace w |}.
Proof. destruct q; reflexivity. Qed.

(** X3.  A save right after any quick action is never turned away as
    blank: its first effect is the note insert, with the category of the
    quick action and the trimmed prefilled buffer. *)
Theorem quick_then_save (p : Props) (q : QuickAction) (o1 o2 : Outcome)
    (w : World) :
  exists rest,
    trace (save p o1 o2 (exec (quick q) w)) =
      trace w ++
      InsertNote
        {| consultation_id := consultationId p;
           doctor_id := doctorId p;
           note_type := quickType q;
           content := trim (currentTranscript (st w) ++ quickSnippet q);
           is_voice_generated := true;
           voice_confidence_score := 95 # 100 |} :: rest.
Proof.
  unfold save. rewrite saveNote_trace, quick_world. cbn [st trace].
  unfold saveNote_emits. cbn [currentTranscript].
  rewrite quick_unblanks. cbn [negb]. eexists. reflexivity.
Qed.



(** X5.  Once a save has completed, or the buffer has been cleared, a
    further invocation of the save handler writes nothing: it is turned
    away with the blank-content notice. *)
Theorem save_after_emptying (p : Props) (r1 r2 : Response) (o3 o4 : Outcome)
    (w : World) :
  (truthy_string (trim (currentTranscript (st w))) = true ->
   truthy (resp_error r1) = false ->
   trace (save p o3 o4 (save p (Resolved r1) (Resolved r2) w)) =
     trace (save p (Resolved r1) (Resolved r2) w)
       ++ [Alert (js "Please record some content before saving.")] /\
   savedNotes (st (save p o3 o4 (save p (Resolved r1) (Resolved r2) w))) =
     data r1 :: savedNotes (st w)) /\
  trace (save p o3 o4 (exec clearTranscript w)) =
    trace w ++ [ResetTranscript;
                Alert (js "Please record some content before saving.")].
Proof.
  split.
  - intros G H1. destruct (noteSaved_throws p (data r1)) as [e|] eqn:T.
    + rewrite (save_callback_throws p r1 r2 e w G H1 T).
      rewrite save_blank by reflexivity. cbn [st trace savedNotes].
      split; reflexivity.
    + rewrite (save_completed p r1 r2 w G H1 T).
      rewrite save_blank by reflexivity. cbn [st trace savedNotes].
      split; reflexivity.
  - rewrite save_blank by reflexivity.
    cbn [trace]. change (trace (exec clearTranscript w))
      with (trace w ++ [ResetTranscript]).
    rewrite <- app_assoc. reflexivity.
Qed.

Lemma save_after_emptying_witness :
  truthy_string
    (trim (currentTranscript (st (bufferWorld (js "stable"))))) = true /\
  truthy JNull = false /\
  trace (save demoProps (created demoNote) (created JNull)
           (save demoProps (created demoNote) (created JNull)
              (bufferWorld (js "stable")))) =
    trace (save demoProps (created demoNote) (created JNull)
             (bufferWorld (js "stable")))
      ++ [Alert (js "Please record some content before saving.")].
Proof.
  split; [reflexivity|]. split; [reflexivity|].
  exact (proj1 (proj1 (save_after_emptying demoProps
                         {| data := demoNote; resp_error := JNull |}
                         {| data := JNull; resp_error := JNull |}
                         (created demoNote) (created JNull)
                         (bufferWorld (js "stable")))
                  eq_refl eq_refl)).
Defined.

(* ================================================================= *)
(** ** The success banner and its timers *)

(** X6.  A timer left pending by an earlier save takes the banner of a
    later save down when it fires, however recently that banner was
    raised: the later save raises the flag (its callback, if any,
    returning), and the flag is down as soon as the older timer has
    fallen due. *)
Theorem earlier_timer_cuts_banner (p : Props) (r1 r2 : Response) (w : World)
    (t d : N) (cb : Callback) :
  truthy_string (trim (currentTranscript (st w))) = true ->
  truthy (resp_error r1) = false ->
  In (t, cb) (timers w) ->
  t <= now w + d ->
  (noteSaved_throws p (data r1) = None ->
   showSuccess (st (save p (Resolved r1) (Resolved r2) w)) = true) /\
  showSuccess (st (advance d (save p (Resolved r1) (Resolved r2) w))) = false.
Proof.
  intros G H1 Hin Hle. split.
  - intros T. rewrite (save_completed p r1 r2 w G H1 T). reflexivity.
  - apply (advance_fires d _ t cb).
    + destruct (noteSaved_throws p (data r1)) as [e|] eqn:T.
      * rewrite (save_callback_throws p r1 r2 e w G H1 T). exact Hin.
      * rewrite (save_completed p r1 r2 w G H1 T). cbn [timers].
        apply in_or_app. left. exact Hin.
    + destruct (noteSaved_throws p (data r1)) as [e|] eqn:T.
      * rewrite (save_callback_throws p r1 r2 e w G H1 T). exact Hle.
      * rewrite (save_completed p r1 r2 w G H1 T). exact Hle.
Qed.

Lemma earlier_timer_cuts_banner_witness :
  truthy_string
    (trim (currentTranscript
       (st (exec (setCurrentTranscript (fun _ => js "second note"))
              (advance 2000
                 (save demoProps (created demoNote) (created JNull)
                    (bufferWorld (js "first note")))))))) = true /\
  noteSaved_throws demoProps demoNote = None /\
  showSuccess
    (st (save demoProps (created demoNote) (created JNull)
           (exec (setCurrentTranscript (fun _ => js "second note"))
              (advance 2000
                 (save demoProps (created demoNote) (created JNull)
                    (bufferWorld (js "first note"))))))) = true /\
  showSuccess
    (st (advance 1000
           (save demoProps (created demoNote) (created JNull)
              (exec (setCurrentTranscript (fun _ => js "second note"))
                 (advance 2000
                    (save demoProps (created demoNote) (created JNull)
                       (bufferWorld (js "first note")))))))) = false.
Proof.
  split; [vm_compute; reflexivity|]. split; [reflexivity|].
  assert (H : (noteSaved_throws demoProps demoNote = None ->
               showSuccess
                 (st (save demoProps (created demoNote) (created JNull)
                        (exec (setCurrentTranscript
                                 (fun _ => js "second note"))
                           (advance 2000
                              (save demoProps (created demoNote)
                                 (created JNull)
                                 (bufferWorld (js "first note"))))))) =
               true) /\
              showSuccess
                (st (advance 1000
                       (save demoProps (created demoNote) (created JNull)
                          (exec (setCurrentTranscript
                                   (fun _ => js "second note"))
                             (advance 2000
                                (save demoProps (created demoNote)
                                   (created JNull)
                                   (bufferWorld (js "first note")))))))) =
              false).
  { refine (earlier_timer_cuts_banner demoProps
              {| data := demoNote; resp_error := JNull |}
              {| data := JNull; resp_error := JNull |}
              (exec (setCurrentTranscript (fun _ => js "second note"))
                 (advance 2000
                    (save demoProps (created demoNote) (created JNull)
                       (bufferWorld (js "first note")))))
              3000 1000 HideSuccess _ _ _ _).
    - vm_compute. reflexivity.
    - vm_compute. reflexivity.
    - vm_compute. left. reflexivity.
    - vm_compute. discriminate. }
  split; [exact (proj1 H eq_refl) | exact (proj2 H)].
Defined.

Lemma save_success_banner_window_witness :
  truthy_string
    (trim (currentTranscript (st (bufferWorld (js "first note"))))) = true /\
  noteSaved_throws demoProps demoNote = None /\
  showSuccess
    (st (advance 2999
           (save demoProps (created demoNote) (created JNull)
              (bufferWorld (js "first note"))))) = true.
Proof.
  split; [vm_compute; reflexivity|]. split; [reflexivity|].
  refine (save_success_banner_window demoProps
            {| data := demoNote; resp_error := JNull |}
            {| data := JNull; resp_error := JNull |}
            (bufferWorld (js "first note")) 2999 _ _ _ _ _);
    vm_compute; reflexivity.
Defined.

(* ================================================================= *)
(** ** The machine: suspended saves and their resumption *)

Lemma settle_spec (p : Props) (n : nat) (o : Outcome)
    (hs : list (State * Pending)) (w : World) :
  settle p n o hs w = (hs, w) \/
  exists hs1 r k hs2, hs = hs1 ++ (r, k) :: hs2 /\
    settle p n o hs w =
      (hs1 ++ match fst (saveNote_resume p r k o w) with
              | Ok (Some k') => [(r, k')]
              | _ => []
              end ++ hs2,
       snd (saveNote_resume p r k o w)).
Proof.
  revert n. induction hs as [|[r k] hs IH]; intros n.
  - left. destruct n; reflexivity.
  - destruct n as [|n].
    + right. exists [], r, k, hs. split; [reflexivity|].
      cbn [settle]. destruct (saveNote_resume p r k o w) as [[[k'|]|e] w']; reflexivity.
    + cbn [settle]. destruct (IH n) as [E | (hs1 & r' & k' & hs2 & E1 & E2)].
      * left. rewrite E. reflexivity.
      * right. exists ((r,k) :: hs1), r', k', hs2. split.
        -- rewrite E1. reflexivity.
        -- rewrite E2. reflexivity.
Qed.

Lemma resume_spec (p : Props) (r : State) (k : Pending) (o : Outcome)
    (w : World) :
  saveNote_resume p r k o w =
  match k, o with
  | _, Rejected e => (Ok None, abandoned w e)
  | AwaitNote, Resolved resp =>
      if truthy (resp_error resp)
      then (Ok None, abandoned w (resp_error resp))
      else (Ok (Some (AwaitLog resp)), exec (emit (InsertLog (logRow p r))) w)
  | AwaitLog resp, Resolved _ =>
      match noteSaved_throws p (data resp) with
      | None => (Ok None, completedWorld p resp w)
      | Some e => (Ok None, abandoned (listedWorld resp w) e)
      end
  end.
Proof.
  destruct k as [|resp], o as [resp'|e]; unfold saveNote_resume.
  - destruct (truthy (resp_error resp')); reflexivity.
  - reflexivity.
  - unfold completedWorld, noteSaved_throws, bind, try_catch_finally,
      callNoteSaved, bind.
    destruct (onNoteSaved p) as [cb|].
    + cbn. destruct (cb (data resp)); reflexivity.
    + reflexivity.
  - reflexivity.
Qed.

Lemma start_spec (p : Props) (r : State) (w : World) :
  saveNote_start p r w =
  if truthy_string (trim (currentTranscript r))
  then (Ok (Some AwaitNote),
        exec (emit (InsertNote (noteRow p r))) (exec (setSaving true) w))
  else (Ok None,
        exec (emit (Alert (js "Please record some content before saving."))) w).
Proof.
  unfold saveNote_start.
  destruct (truthy_string (trim (currentTranscript r))); reflexivity.
Qed.

(** A settling request changes nothing when no invocation waits at that
    position; otherwise the invocation is abandoned through [catch], moves
    on to its second [await], or completes. *)
Lemma settle_cases (p : Props) (n : nat) (o : Outcome)
    (hs : list (State * Pending)) (w : World) :
  settle p n o hs w = (hs, w) \/
  (exists hs1 r k hs2 e,
     hs = hs1 ++ (r, k) :: hs2 /\
     settle p n o hs w = (hs1 ++ hs2, abandoned w e)) \/
  (exists hs1 r hs2 resp,
     hs = hs1 ++ (r, AwaitNote) :: hs2 /\
     settle p n o hs w =
       (hs1 ++ (r, AwaitLog resp) :: hs2,
        exec (emit (InsertLog (logRow p r))) w)) \/
  (exists hs1 r hs2 resp,
     hs = hs1 ++ (r, AwaitLog resp) :: hs2 /\
     settle p n o hs w = (hs1 ++ hs2, completedWorld p resp w)) \/
  (exists hs1 r hs2 resp e,
     hs = hs1 ++ (r, AwaitLog resp) :: hs2 /\
     settle p n o hs w = (hs1 ++ hs2, abandoned (listedWorld resp w) e)).
Proof.
  destruct (settle_spec p n o hs w) as [E | (hs1 & r & k & hs2 & E1 & E2)].
  - left. exact E.
  - right. rewrite E2, resume_spec. clear E2.
    destruct k as [|resp], o as [resp'|e].
    + destruct (truthy (resp_error resp')).
      * left. exists hs1, r, AwaitNote, hs2, (resp_error resp'). split; [exact E1|reflexivity].
      * right. left. exists hs1, r, hs2, resp'. split; [exact E1|reflexivity].
    + left. exists hs1, r, AwaitNote, hs2, e. split; [exact E1|reflexivity].
    + right. right. destruct (noteSaved_throws p (data resp)) as [e|].
      * right. exists hs1, r, hs2, resp, e. split; [exact E1|reflexivity].
      * left. exists hs1, r, hs2, resp. split; [exact E1|reflexivity].
    + left. exists hs1, r, (AwaitLog resp), hs2, e. split; [exact E1|reflexivity].
Qed.

(** A property every event preserves holds along every run. *)
Lemma run_invariant (P : Machine -> Prop) (p : Props) :
  (forall ev m, P m -> P (step p ev m)) ->
  forall evs m, P m -> P (run p evs m).
Proof.
  intros Hstep evs. induction evs as [|ev evs IH]; intros m Hm.
  - exact Hm.
  - apply IH, Hstep, Hm.
Qed.

Lemma run_app (p : Props) (a b : list Event) (m : Machine) :
  run p (a ++ b) m = run p b (run p a m).
Proof. apply fold_left_app. Qed.

Lemma run_callbacks_cases (l : list (N * Callback)) (w : World) :
  run_callbacks l w =
  match l with
  | [] => w
  | _ :: _ => exec (setShowSuccess false) w
  end.
Proof.
  revert w. induction l as [|[t cb] l IH]; intros w.
  - reflexivity.
  - cbn [run_callbacks]. rewrite IH. destruct cb, l; reflexivity.
Qed.

Lemma filter_none_keeps {A} (f : A -> bool) (l : list A) :
  filter f l = [] -> filter (fun x => negb (f x)) l = l.
Proof.
  induction l as [|a l IH]; cbn [filter].
  - reflexivity.
  - destruct (f a); [discriminate|]. intros E. cbn [negb]. rewrite (IH E).
    reflexivity.
Qed.

(* ================================================================= *)
(** ** Invariants of the machine *)

Lemma single_flight_step (p : Props) (ev : Event) (m : Machine) :
  single_flight m -> single_flight (step p ev m).
Proof.
  destruct m as [w hs]. unfold single_flight. cbn [world inflight].
  intros I. destruct ev; cbn [step world inflight]; unfold onWorld;
    cbn [world inflight]; try rewrite !(quick_world q).
  1-7: handlers; split_ifs; exact I.
  - rewrite start_spec. unfold clickable, render. machine.
    destruct (isSupported (voice w)); machine; [|exact I].
    destruct (truthy_string (trim (currentTranscript (st w)))); machine;
      [|exact I].
    destruct (saving (st w)) eqn:S; machine; [rewrite S; exact I|].
    destruct I as [[_ ->] | [F _]]; [|discriminate F].
    right. split; [reflexivity|]. eexists. reflexivity.
  - destruct (settle_cases p n o hs w)
      as [E | [(hs1 & r & k & hs2 & e & E1 & E) |
               [(hs1 & r & hs2 & resp & E1 & E) |
                [(hs1 & r & hs2 & resp & E1 & E) |
                 (hs1 & r & hs2 & resp & e & E1 & E)]]]];
      rewrite E; cbn [world inflight]; [exact I | | | | ];
      (destruct I as [[_ ->] | [S [h ->]]];
       [destruct hs1; discriminate E1|]);
      (destruct hs1 as [|h1 hs1]; [|destruct hs1; discriminate E1]);
      cbn [app] in E1; injection E1 as E1a E1b; subst h hs2; cbn [app].
    + left. split; reflexivity.
    + right. split; [exact S|]. eexists. reflexivity.
    + left. split; reflexivity.
    + left. split; reflexivity.
  - unfold advance. rewrite run_callbacks_cases.
    destruct (filter (is_due (now w + d)) (timers w)); handlers; machine;
      exact I.
Qed.

Lemma timers_fresh_step (p : Props) (ev : Event) (m : Machine) :
  timers_fresh (world m) -> timers_fresh (world (step p ev m)).
Proof.
  destruct m as [w hs]. cbn [world].
  intros I. destruct ev; cbn [step world inflight]; unfold onWorld;
    cbn [world inflight]; try rewrite !(quick_world q).
  1-7: handlers; split_ifs; exact I.
  - rewrite start_spec. unfold clickable, render. machine.
    destruct (isSupported (voice w)); machine; [|exact I].
    destruct (truthy_string (trim (currentTranscript (st w)))); machine;
      [|exact I].
    destruct (saving (st w)); machine; exact I.
  - destruct (settle_cases p n o hs w)
      as [E | [(hs1 & r & k & hs2 & e & E1 & E) |
               [(hs1 & r & hs2 & resp & E1 & E) |
                [(hs1 & r & hs2 & resp & E1 & E) |
                 (hs1 & r & hs2 & resp & e & E1 & E)]]]];
      rewrite E; cbn [world]; try exact I.
    destruct I as [F B]. split; unfold completedWorld; machine.
    + intros t cb Hin. apply in_app_or in Hin.
      destruct Hin as [Hin | [Hin | []]].
      * exact (F t cb Hin).
      * injection Hin as <- _. lia.
    + intros _ E'. apply app_eq_nil in E'. destruct E' as [_ E'].
      discriminate E'.
  - unfold advance. rewrite run_callbacks_cases.
    destruct I as [F B].
    assert (K : forall t cb,
              In (t, cb) (filter (fun tm => negb (is_due (now w + d) tm))
                            (timers w)) ->
              now w + d < t /\ t <= now w + d + 3000).
    { intros t cb Hin. apply filter_In in Hin. destruct Hin as [Hin Hd].
      unfold is_due in Hd. cbn [fst] in Hd.
      apply negb_true_iff, N.leb_gt in Hd.
      destruct (F t cb Hin). lia. }
    destruct (filter (is_due (now w + d)) (timers w)) eqn:Ed.
    + split; machine.
      * exact K.
      * intros Hs. rewrite (filter_none_keeps _ _ Ed). exact (B Hs).
    + split; handlers; machine.
      * exact K.
      * discriminate.
Qed.

Lemma ledger_step (p : Props) (ev : Event) (m : Machine) :
  ledger m -> ledger (step p ev m).
Proof.
  destruct m as [w hs]. unfold ledger. cbn [world inflight].
  intros I. destruct ev; cbn [step world inflight]; unfold onWorld;
    cbn [world inflight]; try rewrite !(quick_world q).
  1-7: handlers; split_ifs; count_writes; first [exact I | lia].
  - rewrite start_spec. unfold clickable, render. machine.
    destruct (isSupported (voice w)); machine; [|exact I].
    destruct (truthy_string (trim (currentTranscript (st w)))); machine;
      [|exact I].
    destruct (saving (st w)); machine; [exact I|].
    handlers. machine. count_writes. lia.
  - destruct (settle_cases p n o hs w)
      as [E | [(hs1 & r & k & hs2 & e & E1 & E) |
               [(hs1 & r & hs2 & resp & E1 & E) |
                [(hs1 & r & hs2 & resp & E1 & E) |
                 (hs1 & r & hs2 & resp & e & E1 & E)]]]];
      rewrite E; cbn [world inflight]; [exact I | | | | ];
      subst hs; revert I; unfold abandoned, completedWorld, listedWorld;
      handlers; machine.
    + destruct k; count_writes; lia.
    + count_writes; lia.
    + destruct (onNoteSaved p); count_writes; lia.
    + count_writes; lia.
  - unfold advance. rewrite run_callbacks_cases.
    destruct (filter (is_due (now w + d)) (timers w)); handlers; machine;
      exact I.
Qed.

(** The Save button answers a click exactly when the hook is supported,
    the buffer is not blank and no save is in progress. *)
Lemma clickable_save (w : World) :
  clickable saveDisabled w = true ->
  isSupported (voice w) = true /\
  truthy_string (trim (currentTranscript (st w))) = true /\
  saving (st w) = false.
Proof.
  unfold clickable, render.
  destruct (isSupported (voice w)); machine; [|discriminate].
  destruct (truthy_string (trim (currentTranscript (st w)))); machine;
    [|discriminate].
  destruct (saving (st w)); machine; [discriminate|].
  intros _. repeat split.
Qed.

Lemma hygienic_step (p : Props) (ev : Event) (m : Machine) :
  hygienic m -> hygienic (step p ev m).
Proof.
  destruct m as [w hs]. unfold hygienic. cbn [world inflight].
  intros [T H]. destruct ev; cbn [step world inflight]; unfold onWorld;
    cbn [world inflight]; try rewrite !(quick_world q).
  1-7: handlers; split_ifs; (split; [|exact H]);
       try exact T; apply Forall_app; (split; [exact T|]);
       repeat constructor.
  - destruct (clickable saveDisabled w) eqn:C; [|split; assumption].
    destruct (clickable_save w C) as (_ & G & _).
    rewrite start_spec, G. cbn [world inflight]. handlers. machine. split.
    + apply Forall_app. split; [exact T|]. repeat constructor.
      cbn [clean_effect noteRow content]. apply trim_trimmed, G.
    + apply Forall_app. split; [exact H|]. repeat constructor. exact G.
  - destruct (settle_cases p n o hs w)
      as [E | [(hs1 & r & k & hs2 & e & E1 & E) |
               [(hs1 & r & hs2 & resp & E1 & E) |
                [(hs1 & r & hs2 & resp & E1 & E) |
                 (hs1 & r & hs2 & resp & e & E1 & E)]]]];
      rewrite E; cbn [world inflight]; [split; assumption | | | | ];
      subst hs; apply Forall_app in H; destruct H as [H1 H2];
      inversion H2 as [|x l G H3]; subst x l; cbn [fst] in G;
      unfold abandoned, completedWorld, listedWorld; handlers; machine.
    + split.
      * repeat (apply Forall_app; split); try exact T; repeat constructor.
      * apply Forall_app. split; assumption.
    + split.
      * apply Forall_app. split; [exact T|]. repeat constructor.
        cbn [clean_effect logRow transcribed_text]. apply trim_trimmed, G.
      * apply Forall_app. split; [exact H1|]. constructor; assumption.
    + split.
      * destruct (onNoteSaved p);
          repeat (apply Forall_app; split); try exact T; repeat constructor.
      * apply Forall_app. split; assumption.
    + split.
      * repeat (apply Forall_app; split); try exact T; repeat constructor.
      * apply Forall_app. split; assumption.
  - unfold advance. rewrite run_callbacks_cases.
    destruct (filter (is_due (now w + d)) (timers w)); handlers; machine;
      split; assumption.
Qed.

(** While [saving] is up, an event other than a settling request leaves
    the suspended invocations alone and [saving] up, and only adds to the
    trace. *)
Lemma step_while_saving (p : Props) (ev : Event) (m : Machine) :
  is_settle ev = false ->
  saving (st (world m)) = true ->
  inflight (step p ev m) = inflight m /\
  saving (st (world (step p ev m))) = true /\
  exists es, trace (world (step p ev m)) = trace (world m) ++ es.
Proof.
  destruct m as [w hs]. cbn [world inflight]. intros Q S.
  destruct ev; try discriminate Q; clear Q;
    cbn [step world inflight]; unfold onWorld;
    cbn [world inflight]; try rewrite !(quick_world q).
  1-7: handlers; split_ifs; (split; [reflexivity|]); (split; [exact S|]);
       first [ exists []; symmetry; apply app_nil_r
             | eexists; reflexivity ].
  - unfold clickable, render. machine. rewrite S.
    destruct (isSupported (voice w)); machine;
      rewrite ?orb_true_r; machine; (split; [reflexivity|]);
      (split; [exact S|]); exists []; symmetry; apply app_nil_r.
  - unfold advance. rewrite run_callbacks_cases.
    destruct (filter (is_due (now w + d)) (timers w)); handlers; machine;
      (split; [reflexivity|]); (split; [exact S|]);
      exists []; symmetry; apply app_nil_r.
Qed.

Lemma run_while_saving (p : Props) (evs : list Event) (m : Machine) :
  forallb (fun ev => negb (is_settle ev)) evs = true ->
  saving (st (world m)) = true ->
  inflight (run p evs m) = inflight m /\
  saving (st (world (run p evs m))) = true /\
  exists es, trace (world (run p evs m)) = trace (world m) ++ es.
Proof.
  revert m. induction evs as [|ev evs IH]; intros m Q S.
  - repeat split; try assumption. exists []. symmetry. apply app_nil_r.
  - cbn [forallb] in Q. apply andb_true_iff in Q. destruct Q as [Q1 Q2].
    apply negb_true_iff in Q1.
    destruct (step_while_saving p ev m Q1 S) as (A & B & es & C).
    destruct (IH (step p ev m) Q2 B) as (A' & B' & es' & C').
    change (run p (ev :: evs) m) with (run p evs (step p ev m)).
    rewrite A', A, C', C. repeat split; try assumption.
    exists (es ++ es'). symmetry. apply app_assoc.
Qed.

(** X12.  Driven through its rendered controls from the first render, the
    component never has more than one save in flight, and [saving] is up
    exactly while one is. *)
Theorem single_flight_reachable (p : Props) (evs : list Event) :
  (List.length (inflight (run p evs initialMachine)) <= 1)%nat /\
  (saving (st (world (run p evs initialMachine))) = true <->
   inflight (run p evs initialMachine) <> []).
Proof.
  assert (I : single_flight (run p evs initialMachine)).
  { apply run_invariant.
    - intros ev m. apply single_flight_step.
    - left. split; reflexivity. }
  destruct I as [[S E] | [S [h E]]]; rewrite S, E; cbn [List.length].
  - split; [lia|]. split; [discriminate | intros F; exfalso; apply F; reflexivity].
  - split; [lia|]. split; [discriminate | reflexivity].
Qed.

(** X13.  In every state the component reaches, the log inserts issued
    do not outnumber the note inserts issued, and the recent-saves list
    holds no more notes than log inserts were issued. *)
Theorem ledger_reachable (p : Props) (evs : list Event) :
  (List.length (filter is_log_insert (trace (world (run p evs initialMachine))))
   <= List.length (filter is_note_insert
                     (trace (world (run p evs initialMachine)))))%nat /\
  (List.length (savedNotes (st (world (run p evs initialMachine))))
   <= List.length (filter is_log_insert
                     (trace (world (run p evs initialMachine)))))%nat.
Proof.
  assert (I : ledger (run p evs initialMachine)).
  { apply run_invariant.
    - intros ev m. apply ledger_step.
    - split; cbn; lia. }
  destruct I as [A B]. split; lia.
Qed.

(** X14.  Driven through its rendered controls, the component never
    raises the blank-content notice (the only notice it can raise is the
    failure notice), and every row it hands to the store carries a
    non-empty text without white space at either end. *)
Theorem controls_keep_trace_clean (p : Props) (evs : list Event) :
  Forall clean_effect (trace (world (run p evs initialMachine))) /\
  ~ In (Alert (js "Please record some content before saving."))
       (trace (world (run p evs initialMachine))).
Proof.
  assert (I : hygienic (run p evs initialMachine)).
  { apply run_invariant.
    - intros ev m. apply hygienic_step.
    - split; constructor. }
  split; [exact (proj1 I)|].
  intros Hin. destruct I as [T _].
  rewrite Forall_forall in T. specialize (T _ Hin).
  cbn [clean_effect] in T. vm_compute in T. discriminate T.
Qed.

(** X11.  A click on an enabled Save button followed by the two requests
    settling, with nothing in between, leaves exactly the world the
    uninterrupted [saveNote] leaves, and no invocation suspended. *)
Theorem events_compose_to_save (p : Props) (o1 o2 : Outcome) (w : World) :
  clickable saveDisabled w = true ->
  run p [EvSave; EvSettle 0 o1; EvSettle 0 o2]
    {| world := w; inflight := [] |} =
  {| world := save p o1 o2 w; inflight := [] |}.
Proof.
  intros C. destruct (clickable_save w C) as (_ & G & _).
  unfold run. cbn [fold_left step world inflight]. rewrite C, start_spec, G.
  cbn [world inflight app settle]. rewrite resume_spec.
  destruct o1 as [r1|e1].
  - destruct (truthy (resp_error r1)) eqn:H1.
    + cbn [settle]. rewrite (save_step1_error p r1 o2 w G H1).
      reflexivity.
    + cbn [settle world inflight]. rewrite resume_spec.
      destruct o2 as [r2|e2].
      * destruct (noteSaved_throws p (data r1)) as [e|] eqn:T.
        -- rewrite (save_callback_throws p r1 r2 e w G H1 T).
           unfold abandoned, listedWorld, exec, emit, setSaving, modify_st.
           machine. rewrite <- !app_assoc. reflexivity.
        -- rewrite (save_completed p r1 r2 w G H1 T).
           unfold completedWorld, noteSaved_call, exec, emit, setSaving,
             modify_st.
           machine.
           destruct (onNoteSaved p); rewrite <- !app_assoc; reflexivity.
      * rewrite (save_step2_rejected p r1 e2 w G H1).
        unfold abandoned, failedWorld, exec, emit, setSaving, modify_st.
        machine. rewrite <- !app_assoc. reflexivity.
  - rewrite (save_step1_rejected p e1 o2 w G). reflexivity.
Qed.

(** X8.  In every state the component reaches, 3000 ms without a
    further event are enough for the success flag to be down. *)
Theorem banner_down_within_window (p : Props) (evs : list Event) :
  showSuccess (st (advance 3000 (world (run p evs initialMachine)))) = false.
Proof.
  assert (I : timers_fresh (world (run p evs initialMachine))).
  { apply (run_invariant (fun m => timers_fresh (world m))).
    - intros ev m. apply timers_fresh_step.
    - split; [intros t cb []| discriminate]. }
  destruct I as [F B].
  destruct (timers (world (run p evs initialMachine))) as [|[t cb] l] eqn:Et.
  - rewrite advance_quiet.
    + destruct (showSuccess (st (world (run p evs initialMachine))));
        [|reflexivity].
      exfalso. apply B; reflexivity.
    + rewrite Et. intros tm [].
  - apply (advance_fires 3000 _ t cb).
    + rewrite Et. left. reflexivity.
    + exact (proj2 (F t cb (or_introl eq_refl))).
Qed.

Lemma click_then_wait (p : Props) (w : World) (d1 : list Event) :
  clickable saveDisabled w = true ->
  forallb (fun ev => negb (is_settle ev)) d1 = true ->
  inflight (run p (EvSave :: d1) {| world := w; inflight := [] |}) =
    [(st w, AwaitNote)] /\
  saving (st (world (run p (EvSave :: d1)
                       {| world := w; inflight := [] |}))) = true /\
  exists es,
    trace (world (run p (EvSave :: d1) {| world := w; inflight := [] |})) =
      (trace w ++ [InsertNote (noteRow p (st w))]) ++ es.
Proof.
  intros C Q. destruct (clickable_save w C) as (_ & G & _).
  change (run p (EvSave :: d1) {| world := w; inflight := [] |})
    with (run p d1 (step p EvSave {| world := w; inflight := [] |})).
  assert (E : step p EvSave {| world := w; inflight := [] |} =
              {| world := exec (emit (InsertNote (noteRow p (st w))))
                            (exec (setSaving true) w);
                 inflight := [(st w, AwaitNote)] |}).
  { cbn [step world inflight]. rewrite C, start_spec, G. reflexivity. }
  rewrite E.
  destruct (run_while_saving p d1
              {| world := exec (emit (InsertNote (noteRow p (st w))))
                            (exec (setSaving true) w);
                 inflight := [(st w, AwaitNote)] |} Q eq_refl)
    as (A & B & es & T).
  rewrite A, B, T. repeat split. exists es. reflexivity.
Qed.

(** X15.  Whatever happens between the click on Save and the settling of
    the two requests (results arriving, quick actions, a new category, a
    clear), a save whose inserts succeed stores the buffer and the
    category of the moment of the click, and ends with an empty buffer
    and [saving] released: text that reached the buffer in between is
    neither stored nor kept.  The success flag is up at the end when the
    callback is absent or returns. *)
Theorem text_during_save_is_dropped (p : Props) (w : World)
    (d1 d2 : list Event) (r1 r2 : Response) :
  clickable saveDisabled w = true ->
  truthy (resp_error r1) = false ->
  forallb (fun ev => negb (is_settle ev)) d1 = true ->
  forallb (fun ev => negb (is_settle ev)) d2 = true ->
  let m := run p (EvSave :: d1 ++ EvSettle 0 (Resolved r1)
                    :: d2 ++ [EvSettle 0 (Resolved r2)])
             {| world := w; inflight := [] |} in
  currentTranscript (st (world m)) = [] /\
  inflight m = [] /\
  saving (st (world m)) = false /\
  (noteSaved_throws p (data r1) = None ->
   showSuccess (st (world m)) = true) /\
  (exists older, savedNotes (st (world m)) = data r1 :: older) /\
  In (InsertNote (noteRow p (st w))) (trace (world m)) /\
  In (InsertLog (logRow p (st w))) (trace (world m)).
Proof.
  intros C H1 Q1 Q2 m. subst m.
  change (EvSave :: d1 ++ EvSettle 0 (Resolved r1)
            :: d2 ++ [EvSettle 0 (Resolved r2)])
    with ((EvSave :: d1) ++ [EvSettle 0 (Resolved r1)]
            ++ d2 ++ [EvSettle 0 (Resolved r2)]).
  rewrite !run_app.
  destruct (click_then_wait p w d1 C Q1) as (A & S & es & T).
  remember (run p (EvSave :: d1) {| world := w; inflight := [] |}) as m1.
  destruct m1 as [w1 hs1]. cbn [world inflight] in A, S, T. subst hs1.
  assert (E : run p [EvSettle 0 (Resolved r1)]
                {| world := w1; inflight := [(st w, AwaitNote)] |} =
              {| world := exec (emit (InsertLog (logRow p (st w)))) w1;
                 inflight := [(st w, AwaitLog r1)] |}).
  { unfold run. cbn [fold_left step world inflight settle].
    rewrite resume_spec, H1. reflexivity. }
  rewrite E.
  destruct (run_while_saving p d2
              {| world := exec (emit (InsertLog (logRow p (st w)))) w1;
                 inflight := [(st w, AwaitLog r1)] |} Q2 S)
    as (A2 & S2 & es2 & T2).
  remember (run p d2
              {| world := exec (emit (InsertLog (logRow p (st w)))) w1;
                 inflight := [(st w, AwaitLog r1)] |}) as m2.
  destruct m2 as [w2 hs2]. cbn [world inflight] in A2, S2, T2. subst hs2.
  unfold run. cbn [fold_left step world inflight settle].
  rewrite resume_spec. cbn [exec emit snd trace] in T2. rewrite T in T2.
  destruct (noteSaved_throws p (data r1)) as [e|]; cbn [world inflight];
    unfold completedWorld, abandoned, listedWorld; machine.
  - repeat split.
    + discriminate.
    + eexists. reflexivity.
    + rewrite T2, !in_app_iff. cbn [In]. tauto.
    + rewrite T2, !in_app_iff. cbn [In]. tauto.
  - repeat split.
    + eexists. reflexivity.
    + destruct (onNoteSaved p); rewrite T2, !in_app_iff; cbn [In]; tauto.
    + destruct (onNoteSaved p); rewrite T2, !in_app_iff; cbn [In]; tauto.
Qed.

(** X16.  When the first insert fails, the buffer, the recent-saves list
    and the success flag are those of the moment of the failure: edits
    made while the request was pending survive, [saving] is released and
    no further write is issued. *)
Theorem failed_save_keeps_later_edits (p : Props) (w : World)
    (d1 : list Event) (o1 : Outcome) :
  clickable saveDisabled w = true ->
  succeeded o1 = false ->
  forallb (fun ev => negb (is_settle ev)) d1 = true ->
  let m1 := run p (EvSave :: d1) {| world := w; inflight := [] |} in
  let m := step p (EvSettle 0 o1) m1 in
  currentTranscript (st (world m)) = currentTranscript (st (world m1)) /\
  savedNotes (st (world m)) = savedNotes (st (world m1)) /\
  showSuccess (st (world m)) = showSuccess (st (world m1)) /\
  saving (st (world m)) = false /\
  inflight m = [] /\
  filter is_write (trace (world m)) = filter is_write (trace (world m1)).
Proof.
  intros C F Q m1 m. subst m m1.
  destruct (click_then_wait p w d1 C Q) as (A & S & es & T).
  remember (run p (EvSave :: d1) {| world := w; inflight := [] |}) as m1.
  destruct m1 as [w1 hs1]. cbn [world inflight] in A, S, T. subst hs1.
  cbn [step world inflight settle]. rewrite resume_spec.
  destruct (succeeded_false o1 F) as [[e ->] | [r1 [-> H1]]];
    [|rewrite H1]; unfold abandoned; machine; repeat split;
    rewrite !filter_app; cbn [filter is_write]; rewrite !app_nil_r;
    reflexivity.
Qed.

Lemma events_compose_to_save_witness :
  clickable saveDisabled (bufferWorld (js "bp 120/80")) = true /\
  run demoProps [EvSave; EvSettle 0 (created demoNote);
                 EvSettle 0 (created JNull)]
    {| world := bufferWorld (js "bp 120/80"); inflight := [] |} =
  {| world := save demoProps (created demoNote) (created JNull)
                (bufferWorld (js "bp 120/80"));
     inflight := [] |}.
Proof.
  split.
  - vm_compute. reflexivity.
  - refine (events_compose_to_save demoProps (created demoNote)
              (created JNull) (bufferWorld (js "bp 120/80")) _).
    vm_compute. reflexivity.
Defined.

Lemma text_during_save_is_dropped_witness :
  clickable saveDisabled (bufferWorld (js "bp 120/80")) = true /\
  noteSaved_throws demoProps demoNote = None /\
  currentTranscript
    (st (world
           (run demoProps
              (EvSave :: [EvResult (js "pulse 70") true]
                 ++ EvSettle 0 (created demoNote)
                 :: [EvQuick QDiagnosis] ++ [EvSettle 0 (created JNull)])
              {| world := bufferWorld (js "bp 120/80");
                 inflight := [] |}))) = [] /\
  showSuccess
    (st (world
           (run demoProps
              (EvSave :: [EvResult (js "pulse 70") true]
                 ++ EvSettle 0 (created demoNote)
                 :: [EvQuick QDiagnosis] ++ [EvSettle 0 (created JNull)])
              {| world := bufferWorld (js "bp 120/80");
                 inflight := [] |}))) = true.
Proof.
  assert (C : clickable saveDisabled (bufferWorld (js "bp 120/80")) = true)
    by (vm_compute; reflexivity).
  split; [exact C|]. split; [reflexivity|].
  destruct (text_during_save_is_dropped demoProps
              (bufferWorld (js "bp 120/80"))
              [EvResult (js "pulse 70") true] [EvQuick QDiagnosis]
              {| data := demoNote; resp_error := JNull |}
              {| data := JNull; resp_error := JNull |}
              C eq_refl eq_refl eq_refl)
    as (B & _ & _ & S & _).
  split; [exact B | exact (S eq_refl)].
Defined.

Lemma failed_save_keeps_later_edits_witness :
  clickable saveDisabled (bufferWorld (js "bp 120/80")) = true /\
  succeeded refused = false /\
  currentTranscript
    (st (world
           (step demoProps (EvSettle 0 refused)
              (run demoProps [EvSave; EvResult (js "pulse 70") true]
                 {| world := bufferWorld (js "bp 120/80");
                    inflight := [] |})))) =
  currentTranscript
    (st (world
           (run demoProps [EvSave; EvResult (js "pulse 70") true]
              {| world := bufferWorld (js "bp 120/80");
                 inflight := [] |}))).
Proof.
  split; [vm_compute; reflexivity|]. split; [reflexivity|].
  refine (proj1 (failed_save_keeps_later_edits demoProps
                   (bufferWorld (js "bp 120/80"))
                   [EvResult (js "pulse 70") true] refused _ _ _));
    vm_compute; reflexivity.
Defined.

(* ================================================================= *)
(** ** The rendered controls *)

(** X9.  In the recorder view the Save button is enabled exactly when the
    trimmed buffer is non-empty and no save is in progress, the Clear
    button is disabled exactly when the buffer is empty or white space
    only, both are disabled while the placeholder shows, and the record
    button is never disabled. *)
Theorem buttons_follow_buffer (w : World) (v : RecorderView) :
  render w = Recorder v ->
  (saveDisabled v = false <->
   truthy_string (trim (currentTranscript (st w))) = true /\
   saving (st w) = false) /\
  (clearDisabled v = true <->
   forallb isWhiteSpace (currentTranscript (st w)) = true) /\
  (placeholder v = true -> saveDisabled v = true /\ clearDisabled v = true) /\
  toggleDisabled v = false.
Proof.
  unfold render. destruct (isSupported (voice w)); cbn [negb];
    [|discriminate].
  intros E. injection E as <-. machine. repeat split.
  - destruct (truthy_string (trim (currentTranscript (st w))));
      [reflexivity | discriminate].
  - destruct (truthy_string (trim (currentTranscript (st w))));
      [|discriminate].
    destruct (saving (st w)); [discriminate | reflexivity].
  - intros [-> ->]. reflexivity.
  - apply blank_guard.
  - apply blank_guard.
  - destruct (currentTranscript (st w)); [reflexivity | discriminate].
  - destruct (currentTranscript (st w)); [reflexivity | discriminate].
Qed.

Lemma buttons_follow_buffer_witness :
  render (bufferWorld [32; 32]) =
    Recorder
      {| selectValue := general; successMessage := false;
         toggleDanger := false; toggleDisabled := false;
         toggleLabel := js "Start Recording"; listeningIndicator := false;
         errorDisplay := None; transcriptText := [32; 32];
         interimSpan := None; placeholder := false; saveDisabled := true;
         saveLoading := false; clearDisabled := true |} /\
  (true = true <->
   forallb isWhiteSpace (currentTranscript (st (bufferWorld [32; 32])))
     = true).
Proof.
  split.
  - vm_compute. reflexivity.
  - refine (proj1 (proj2 (buttons_follow_buffer (bufferWorld [32; 32])
                            {| selectValue := general;
                               successMessage := false;
                               toggleDanger := false;
                               toggleDisabled := false;
                               toggleLabel := js "Start Recording";
                               listeningIndicator := false;
                               errorDisplay := None;
                               transcriptText := [32; 32];
                               interimSpan := None; placeholder := false;
                               saveDisabled := true; saveLoading := false;
                               clearDisabled := true |} _))).
    vm_compute. reflexivity.
Defined.

(** X10.  When the hook reports no support the fallback card is all that
    is rendered, and no click has any effect. *)
Theorem unsupported_is_inert (p : Props) (ev : Event) (m : Machine) :
  isSupported (voice (world m)) = false ->
  is_click ev = true ->
  render (world m) = UnsupportedView /\ step p ev m = m.
Proof.
  intros U C. unfold render. rewrite U. cbn [negb]. split; [reflexivity|].
  destruct ev; try discriminate C; cbn [step]; unfold clickable, render;
    rewrite U; reflexivity.
Qed.

Lemma unsupported_is_inert_witness :
  isSupported
    (voice (exec (modify_voice (fun v =>
                    {| isListening := isListening v; isSupported := false;
                       transcript := transcript v;
                       interimTranscript := interimTranscript v;
                       error := error v |}))
              (bufferWorld (js "bp 120/80")))) = false /\
  is_click EvSave = true /\
  step demoProps EvSave
    {| world := exec (modify_voice (fun v =>
                        {| isListening := isListening v;
                           isSupported := false;
                           transcript := transcript v;
                           interimTranscript := interimTranscript v;
                           error := error v |}))
                  (bufferWorld (js "bp 120/80"));
       inflight := [] |} =
    {| world := exec (modify_voice (fun v =>
                        {| isListening := isListening v;
                           isSupported := false;
                           transcript := transcript v;
                           interimTranscript := interimTranscript v;
                           error := error v |}))
                  (bufferWorld (js "bp 120/80"));
       inflight := [] |}.
Proof.
  split; [reflexivity|]. split; [reflexivity|].
  exact (proj2 (unsupported_is_inert demoProps EvSave
                  {| world := exec (modify_voice (fun v =>
                                      {| isListening := isListening v;
                                         isSupported := false;
                                         transcript := transcript v;
                                         interimTranscript :=
                                           interimTranscript v;
                                         error := error v |}))
                                (bufferWorld (js "bp 120/80"));
                     inflight := [] |} eq_refl eq_refl)).
Defined.
